(** * scripts/generate-reports.py: the compliance report generator

    A shallow embedding of the three steps of the script
    ([load_mapping], [calculate_coverage], [generate_html]) and of its
    entry point, with the properties of the specification stated over it.

    Python values are modelled as the script meets them:
    - the document returned by [yaml.safe_load] as a tree of YAML values;
    - Python's [int] as [Z], Python's [float] as binary64 numbers
      (module [Float64]), with true division, multiplication and
      [round(x, ndigits)] rounding the exact result to the nearest double;
    - exceptions as an error type, the script's functions returning in
      the error monad [result];
    - the two files the script touches, the clock and the standard output
      as an explicit world that is threaded through the calls. *)

From Stdlib Require Import Reals Lra.
From Stdlib Require Import ZArith List String Ascii Bool Lia.
From Stdlib Require Import DecimalString Permutation.
From Stdlib Require Floats.SpecFloat.
Import ListNotations.

Local Open Scope Z_scope.

(* ===================================================================== *)
(** ** Binary64 arithmetic on non-negative numbers *)
(* ===================================================================== *)

Module Float64.

(** A non-negative double is [mant * 2 ^ expo]. Canonical forms have
    [2^52 <= mant < 2^53] (normal numbers) or [expo = emin] and
    [mant < 2^52] (subnormal numbers and zero). The script only ever
    computes with numbers between 0 and 100, so neither signs, nor
    infinities, nor NaN are represented. *)
Record t : Set := mk { mant : Z; expo : Z }.

Definition prec : Z := 53.
Definition emin : Z := -1074.

Definition zero : t := mk 0 emin.

(** [x <= y] on the values denoted: both mantissas are brought to the
    smaller of the two exponents. *)
Definition leb (x y : t) : bool :=
  let e := Z.min (expo x) (expo y) in
  mant x * 2 ^ (expo x - e) <=? mant y * 2 ^ (expo y - e).

Definition le (x y : t) : Prop := leb x y = true.

(** [a / b] rounded to the nearest integer, ties to the even one
    ([0 <= a], [0 < b]). *)
Definition rne_div (a b : Z) : Z :=
  let q := a / b in
  match 2 * (a mod b) ?= b with
  | Lt => q
  | Gt => q + 1
  | Eq => if Z.even q then q else q + 1
  end.

(** The fraction [(a / b) / 2^e] as a numerator and a denominator. *)
Definition scale_num (a e : Z) : Z := a * 2 ^ Z.max 0 (- e).
Definition scale_den (b e : Z) : Z := b * 2 ^ Z.max 0 e.

(** [floor (log2 (a / b))] for [0 < a], [0 < b]. *)
Definition ilog2_ratio (a b : Z) : Z :=
  let k := Z.log2 a - Z.log2 b in
  if scale_num a k <? scale_den b k then k - 1 else k.

(** The double nearest to the rational [a / b] ([0 <= a], [0 < b]),
    ties to even: the rounding every IEEE 754 operation applies to its
    exact result. Numbers below [2^-1022] are rounded on the subnormal
    grid of step [2^emin]. The largest exponent is not checked. *)
Definition nearest (a b : Z) : t :=
  if a <=? 0 then zero
  else
    let e := Z.max (ilog2_ratio a b - (prec - 1)) emin in
    let m := rne_div (scale_num a e) (scale_den b e) in
    if m =? 2 ^ prec then mk (2 ^ (prec - 1)) (e + 1) else mk m e.

(** [float(n)] for an [int] [n >= 0]. *)
Definition of_int (n : Z) : t := nearest n 1.

(** [a / b] on two [int]s, [0 <= a], [0 < b]: CPython rounds the exact
    quotient once. *)
Definition int_truediv (a b : Z) : t := nearest a b.

(** [x * y] on two [float]s. *)
Definition mul (x y : t) : t :=
  let e := expo x + expo y in
  nearest (scale_num (mant x * mant y) (- e)) (scale_den 1 (- e)).

(** [round(x, ndigits)] for [ndigits >= 0]: CPython prints [x] with
    [ndigits] decimals, correctly rounded with ties to even, and reads
    the decimal number back as the nearest double. [decimal_digits] is
    that decimal number without its point, [x * 10^ndigits] rounded to
    an integer. *)
Definition decimal_digits (ndigits : nat) (x : t) : Z :=
  rne_div (scale_num (10 ^ Z.of_nat ndigits * mant x) (- expo x))
          (scale_den 1 (- expo x)).

Definition round (ndigits : nat) (x : t) : t :=
  nearest (decimal_digits ndigits x) (10 ^ Z.of_nat ndigits).

(** The real number a double stands for, and the one a fraction
    stands for. *)
Definition F2R (x : t) : R := (IZR (mant x) * powerRZ 2 (expo x))%R.
Definition ratio (a b : Z) : R := (IZR a / IZR b)%R.

(** The exponent [nearest] gives to the double nearest to [a / b]. *)
Definition exponent_of (a b : Z) : Z :=
  Z.max (ilog2_ratio a b - (prec - 1)) emin.

End Float64.

(* ===================================================================== *)
(** ** Python values and exceptions *)
(* ===================================================================== *)

#[local] Set Warnings "-register-all".

(** What [yaml.safe_load] returns: [None], [bool], [int], [float], [str],
    [list] and [dict]. A [dict] keeps its entries in insertion order and
    holds each key once. *)
Inductive yaml : Type :=
| YNull
| YBool (b : bool)
| YInt (n : Z)
| YFloat (negative : bool) (x : Float64.t)
| YStr (s : string)
| YSeq (items : list yaml)
| YMap (entries : list (yaml * yaml)).

(** The exceptions the script can end with. *)
Inductive exn : Set :=
| FileNotFoundError
| YAMLError
| KeyError (key : string)
| TypeError
| NameError (name : string)
| FileExistsError
| PermissionError
| IsADirectoryError
| UnicodeDecodeError
| UnicodeEncodeError
| OtherError (what : string).

Inductive result (A : Type) : Type :=
| Ok (a : A)
| Raise (e : exn).

Arguments Ok {A} a.
Arguments Raise {A} e.

Definition rbind {A B : Type} (r : result A) (k : A -> result B) : result B :=
  match r with
  | Ok a => k a
  | Raise e => Raise e
  end.

Declare Scope result_scope.
Delimit Scope result_scope with result.
Notation "x <- r ;; k" := (rbind r (fun x => k))
  (at level 61, r at next level, right associativity) : result_scope.

(** A number as [calculate_coverage] stores it under ['percentage']: the
    [int] [0] of the guard, or the [float] that [round] returns. *)
Inductive number : Set :=
| PyInt (n : Z)
| PyFloat (x : Float64.t).

(** [v == s] for a [str] [s]: only an equal [str] compares equal. *)
Definition eq_str (v : yaml) (s : string) : bool :=
  match v with
  | YStr s' => String.eqb s' s
  | _ => false
  end.

(** The value held under the [str] [key] among the entries of a [dict]. *)
Fixpoint lookup (key : string) (entries : list (yaml * yaml)) : option yaml :=
  match entries with
  | [] => None
  | (k, v) :: rest => if eq_str k key then Some v else lookup key rest
  end.

(** [v[key]] for a [str] [key]: a [dict] without the key raises
    [KeyError]; a [list] or a [str] does not take a [str] index and the
    other values are not subscriptable, all of which is a [TypeError]. *)
Definition subscript (v : yaml) (key : string) : result yaml :=
  match v with
  | YMap entries =>
      match lookup key entries with
      | Some x => Ok x
      | None => Raise (KeyError key)
      end
  | _ => Raise TypeError
  end.

(** The characters of a [str] held as UTF-8 bytes: a byte [10xxxxxx]
    continues the character begun before it. *)
Definition continuation (c : ascii) : bool :=
  let n := N_of_ascii c in (128 <=? n)%N && (n <? 192)%N.

Fixpoint chars_aux (s : string) : string * list string :=
  match s with
  | EmptyString => (EmptyString, [])
  | String c rest =>
      let (pending, out) := chars_aux rest in
      if continuation c then (String c pending, out)
      else (EmptyString, String c pending :: out)
  end.

Definition chars (s : string) : list string := snd (chars_aux s).

(** [list(v)], the elements a [for] loop over [v] visits: the items of a
    [list], the keys of a [dict], the characters of a [str]. *)
Definition iterate (v : yaml) : result (list yaml) :=
  match v with
  | YSeq items => Ok items
  | YMap entries => Ok (map fst entries)
  | YStr s => Ok (map YStr (chars s))
  | _ => Raise TypeError
  end.

(** [len(v)]. *)
Definition len (v : yaml) : result Z :=
  match v with
  | YSeq items => Ok (Z.of_nat (List.length items))
  | YMap entries => Ok (Z.of_nat (List.length entries))
  | YStr s => Ok (Z.of_nat (List.length (chars s)))
  | _ => Raise TypeError
  end.

(* ===================================================================== *)
(** ** The aggregator: [calculate_coverage] *)
(* ===================================================================== *)

Record CoverageStats : Set := {
  total : Z;
  implemented : Z;
  in_progress : Z;
  not_implemented : Z;
  percentage : number
}.

Local Open Scope result_scope.

(** [sum(1 for c in cs if c['status'] == status)], the running sum in
    [acc]: every control is asked for its ['status'], the first one that
    cannot answer ends the loop with its exception. *)
Fixpoint sum_matching (status : string) (cs : list yaml) (acc : Z) : result Z :=
  match cs with
  | [] => Ok acc
  | c :: rest =>
      st <- subscript c "status" ;;
      sum_matching status rest (if eq_str st status then acc + 1 else acc)
  end.

Definition count_status (status : string) (controls : yaml) : result Z :=
  cs <- iterate controls ;;
  sum_matching status cs 0.

(** [round((implemented / total) * 100, 1) if total > 0 else 0]. *)
Definition coverage_percentage (implemented total : Z) : number :=
  if 0 <? total
  then PyFloat (Float64.round 1
                  (Float64.mul (Float64.int_truediv implemented total)
                               (Float64.of_int 100)))
  else PyInt 0.

Definition calculate_coverage (controls : yaml) : result CoverageStats :=
  total <- len controls ;;
  implemented <- count_status "implemented" controls ;;
  in_progress <- count_status "in_progress" controls ;;
  not_implemented <- count_status "not_implemented" controls ;;
  Ok {| total := total;
        implemented := implemented;
        in_progress := in_progress;
        not_implemented := not_implemented;
        percentage := coverage_percentage implemented total |}.

Local Close Scope result_scope.

(* ===================================================================== *)
(** ** The world of a run: two files, the clock, the standard output *)
(* ===================================================================== *)

(** [compliance-mapping.yml] as [open] and [yaml.safe_load] find it:
    no such file, a file that may not be read, a directory of that name,
    bytes that are no text in the locale's encoding, a text that is not
    YAML, or a text that loads as the document [doc]. *)
Inductive input_file : Type :=
| Absent
| Forbidden
| IsDirectory
| Undecodable
| Unparseable
| Document (doc : yaml).

(** The path [reports] in the working directory: nothing there, a
    directory with or without [compliance-report.html] in it, or
    something that is not a directory. *)
Inductive reports_entry : Set :=
| NoEntry
| Directory (report : option string)
| NotADirectory.

(** What [write_text] comes to for a given text: the text is written;
    or the file cannot be opened and stays as it was; or the file has
    been opened, hence emptied, and the write fails, leaving [remains] in
    it (nothing when the text cannot be encoded). *)
Inductive write_outcome : Set :=
| Written
| OpenFails (e : exn)
| WriteFails (e : exn) (remains : string).

(** How the operating system answers the script: whether [reports] can
    be created, what becomes of the text written to the report, and
    whether a line can be printed (it cannot, with [UnicodeEncodeError],
    when the encoding of the standard output lacks one of its
    characters). *)
Record system : Type := {
  mkdir_error : option exn;
  write_result : string -> write_outcome;
  print_error : string -> option exn
}.

Record world : Type := {
  input : input_file;
  reports : reports_entry;
  stdout : list string;
  os : system
}.

Definition set_reports (r : reports_entry) (w : world) : world :=
  {| input := input w; reports := r; stdout := stdout w; os := os w |}.

Definition set_stdout (lines : list string) (w : world) : world :=
  {| input := input w; reports := reports w; stdout := lines; os := os w |}.

(** A computation of the script: it may change the world and ends with a
    value or with an exception. *)
Definition M (A : Type) : Type := world -> result A * world.

Definition ret {A : Type} (a : A) : M A := fun w => (Ok a, w).

Definition raise {A : Type} (e : exn) : M A := fun w => (Raise e, w).

Definition bind {A B : Type} (m : M A) (k : A -> M B) : M B :=
  fun w =>
    match m w with
    | (Ok a, w') => k a w'
    | (Raise e, w') => (Raise e, w')
    end.

(** A computation without effects. *)
Definition lift {A : Type} (r : result A) : M A := fun w => (r, w).

Declare Scope M_scope.
Delimit Scope M_scope with M.
Notation "x <- m ;; k" := (bind m (fun x => k))
  (at level 61, m at next level, right associativity) : M_scope.
Notation "m ;; k" := (bind m (fun _ => k))
  (at level 61, right associativity) : M_scope.

(** [Path('reports').mkdir(exist_ok=True)]: an existing directory is
    accepted, anything else of that name is not. *)
Definition mkdir_reports : M unit :=
  fun w =>
    match reports w with
    | NoEntry =>
        match mkdir_error (os w) with
        | None => (Ok tt, set_reports (Directory None) w)
        | Some e => (Raise e, w)
        end
    | Directory _ => (Ok tt, w)
    | NotADirectory => (Raise FileExistsError, w)
    end.

(** [Path('reports/compliance-report.html').write_text(text)]: the file
    is opened for writing, which creates or empties it, and the text is
    written. *)
Definition write_report (text : string) : M unit :=
  fun w =>
    match reports w with
    | Directory _ =>
        match write_result (os w) text with
        | Written => (Ok tt, set_reports (Directory (Some text)) w)
        | OpenFails e => (Raise e, w)
        | WriteFails e remains =>
            (Raise e, set_reports (Directory (Some remains)) w)
        end
    | NoEntry => (Raise FileNotFoundError, w)
    | NotADirectory => (Raise (OtherError "NotADirectoryError"), w)
    end.

(** [print(line)]. *)
Definition print (line : string) : M unit :=
  fun w =>
    match print_error (os w) line with
    | None => (Ok tt, set_stdout (stdout w ++ [line]) w)
    | Some e => (Raise e, w)
    end.

(** The date part of [datetime.now()]. *)
Inductive month : Set :=
| January | February | March | April | May | June
| July | August | September | October | November | December.

Record datetime : Set := { year : Z; month_of : month; day : Z }.

Definition str_int (n : Z) : string := NilZero.string_of_int (Z.to_int n).

Definition month_name (m : month) : string :=
  match m with
  | January => "January" | February => "February" | March => "March"
  | April => "April" | May => "May" | June => "June"
  | July => "July" | August => "August" | September => "September"
  | October => "October" | November => "November" | December => "December"
  end.

(** [now.strftime('%B %d, %Y')]: the month's name, the day on two
    digits, the year. *)
Definition strftime (now : datetime) : string :=
  month_name (month_of now) ++ " "
  ++ (if day now <? 10 then "0" else EmptyString) ++ str_int (day now)
  ++ ", " ++ str_int (year now).

(** [str(x)] for the number stored under ['percentage']. The [float]
    there is the double nearest to a number with one decimal, which
    [repr] prints with exactly that decimal. *)
Definition str_number (x : number) : string :=
  match x with
  | PyInt n => str_int n
  | PyFloat f =>
      let tenths := Float64.decimal_digits 1 f in
      str_int (tenths / 10) ++ "." ++ str_int (tenths mod 10)
  end.

(* ===================================================================== *)
(** ** The loader: [load_mapping] *)
(* ===================================================================== *)

(** [open('compliance-mapping.yml')] followed by [yaml.safe_load]: what
    the file holds is returned as it is, whatever its shape. *)
Definition load_mapping : M yaml :=
  fun w =>
    match input w with
    | Absent => (Raise FileNotFoundError, w)
    | Forbidden => (Raise PermissionError, w)
    | IsDirectory => (Raise IsADirectoryError, w)
    | Undecodable => (Raise UnicodeDecodeError, w)
    | Unparseable => (Raise YAMLError, w)
    | Document doc => (Ok doc, w)
    end.

(* ===================================================================== *)
(** ** The renderer: [generate_html] *)
(* ===================================================================== *)

Local Open Scope string_scope.

Definition nl : string := String (ascii_of_nat 10) EmptyString.
Definition dq : string := String (ascii_of_nat 34) EmptyString.

(** The literal text of the template, cut at its three interpolations. *)
Definition html_before_date : string :=
  String.concat nl
    [ EmptyString;
      "    <!DOCTYPE html>";
      "    <html>";
      "    <head>";
      "        <title>MUFG NIST Compliance Report</title>";
      "        <!-- Include the CSS from earlier -->";
      "    </head>";
      "    <body>";
      "        <div class=" ++ dq ++ "header" ++ dq ++ ">";
      "            <h1>NIST 800-53 Compliance Report</h1>";
      "            <p>Generated: " ].

Definition html_before_total : string :=
  String.concat nl
    [ "</p>";
      "        </div>";
      "        ";
      "        <div class=" ++ dq ++ "coverage-summary" ++ dq ++ ">";
      "            <div class=" ++ dq ++ "coverage-card" ++ dq ++ ">";
      "                <h3>Total Controls</h3>";
      "                <div class=" ++ dq ++ "number" ++ dq ++ ">" ].

Definition html_before_sections : string :=
  String.concat nl
    [ "</div>";
      "            </div>";
      "            <!-- More cards -->";
      "        </div>";
      "        ";
      "        <!-- Generate control sections -->";
      "        " ].

Definition html_after_sections : string :=
  String.concat nl
    [ EmptyString;
      "    </body>";
      "    </html>";
      "    " ].

(** The names the module binds besides its own three functions and its
    imports. The template calls [generate_control_sections]; what that
    name is bound to, if anything, is looked up when the template is
    evaluated. *)
Record globals : Type := {
  generate_control_sections : option (yaml -> result string)
}.

(** The module as it is written binds [load_mapping],
    [calculate_coverage], [generate_html], [yaml], [datetime] and [Path],
    and nothing under the name [generate_control_sections]. *)
Definition script_globals : globals :=
  {| generate_control_sections := None |}.

(** Reading a global name. *)
Definition global_function (name : string) (binding : option (yaml -> result string))
  : result (yaml -> result string) :=
  match binding with
  | Some f => Ok f
  | None => Raise (NameError name)
  end.

(** The f-string of [generate_html]: its three expressions are evaluated
    from left to right, and in the call the function's name is read
    before the argument is evaluated. *)
Definition render (g : globals) (now : datetime) (mapping : yaml)
    (coverage : CoverageStats) : result string :=
  (let date := strftime now in
   let total_text := str_int (total coverage) in
   f <- global_function "generate_control_sections" (generate_control_sections g) ;;
   controls <- subscript mapping "controls" ;;
   sections <- f controls ;;
   Ok (html_before_date ++ date ++ html_before_total ++ total_text
       ++ html_before_sections ++ sections ++ html_after_sections))%result.

Definition output_path : string := "reports/compliance-report.html".

(** The check mark U+2713 that opens the confirmation line, in UTF-8. *)
Definition check_mark : string :=
  String (ascii_of_nat 226) (String (ascii_of_nat 156)
    (String (ascii_of_nat 147) EmptyString)).

Definition confirmation_line : string :=
  check_mark ++ " Report generated: " ++ output_path.

Definition summary_line (coverage : CoverageStats) : string :=
  "  Coverage: " ++ str_number (percentage coverage) ++ "% ("
  ++ str_int (implemented coverage) ++ "/" ++ str_int (total coverage) ++ ")".

Local Close Scope string_scope.
Local Open Scope M_scope.

Definition generate_html (g : globals) (now : datetime) (mapping : yaml) : M unit :=
  coverage <- lift (controls <- subscript mapping "controls" ;;
                    calculate_coverage controls)%result ;;
  html <- lift (render g now mapping coverage) ;;
  mkdir_reports ;;
  write_report html ;;
  print confirmation_line ;;
  print (summary_line coverage).

(** The script run as a program. *)
Definition main (g : globals) (now : datetime) : M unit :=
  mapping <- load_mapping ;;
  generate_html g now mapping.

(** The exit status of the interpreter: an exception that nothing
    catches ends the process with status 1. *)
Definition exit_status {A : Type} (r : result A) : Z :=
  match r with
  | Ok _ => 0
  | Raise _ => 1
  end.

Local Close Scope M_scope.

(* ===================================================================== *)
(** ** What the specification talks about *)
(* ===================================================================== *)

(** A control that has a ['status'] field. *)
Definition has_status (c : yaml) : bool :=
  match subscript c "status" with
  | Ok _ => true
  | Raise _ => false
  end.

(** A control whose ['status'] is the string [s]. *)
Definition status_is (s : string) (c : yaml) : bool :=
  match subscript c "status" with
  | Ok st => eq_str st s
  | Raise _ => false
  end.

(** A control whose status is one of the three the data model names. *)
Definition recognized (c : yaml) : bool :=
  status_is "implemented" c || status_is "in_progress" c
  || status_is "not_implemented" c.

(** The number of controls of a list that satisfy [p]. *)
Definition count (p : yaml -> bool) (cs : list yaml) : Z :=
  Z.of_nat (List.length (filter p cs)).

(** The percentage as the specification words it,
    [round(100 * i / n, 1)]: the product is an [int], the quotient the
    double nearest to it. *)
Definition spec_percentage (i n : Z) : Float64.t :=
  Float64.round 1 (Float64.int_truediv (100 * i) n).

(** The percentage as the script computes it,
    [round((i / n) * 100, 1)]. *)
Definition script_percentage (i n : Z) : Float64.t :=
  Float64.round 1
    (Float64.mul (Float64.int_truediv i n) (Float64.of_int 100)).

(** *** The standard library's IEEE 754 operations, for comparison *)

(** [x] is the binary64 number [s] of [SpecFloat]. *)
Definition same_double (s : SpecFloat.spec_float) (x : Float64.t) : bool :=
  match s with
  | SpecFloat.S754_zero false => Float64.mant x =? 0
  | SpecFloat.S754_finite false m e =>
      (Z.pos m =? Float64.mant x) && (e =? Float64.expo x)
  | _ => false
  end.

Definition ieee_of_int (n : Z) : SpecFloat.spec_float :=
  match n with
  | Z.pos _ => SpecFloat.binary_normalize 53 1024 n 0 false
  | _ => SpecFloat.S754_zero false
  end.

(** For [i] implemented controls out of [n], the quotient, its product
    by 100 and the double read back from the rounded decimal are those
    the IEEE 754 division and multiplication give. *)
Definition agrees_with_ieee (i n : Z) : bool :=
  let q := SpecFloat.SFdiv 53 1024 (ieee_of_int i) (ieee_of_int n) in
  let p := SpecFloat.SFmul 53 1024 q (ieee_of_int 100) in
  let scaled := Float64.mul (Float64.int_truediv i n) (Float64.of_int 100) in
  same_double q (Float64.int_truediv i n)
  && same_double p scaled
  && same_double
       (SpecFloat.SFdiv 53 1024
          (ieee_of_int (Float64.decimal_digits 1 scaled)) (ieee_of_int 10))
       (script_percentage i n).

Definition upto (n : nat) : list Z := map Z.of_nat (seq 0 (S n)).

(** The value of a number, to compare an [int] with a [float]. *)
Definition number_float (x : number) : Float64.t :=
  match x with
  | PyInt n => Float64.of_int n
  | PyFloat f => f
  end.

Definition number_le (x y : number) : Prop :=
  Float64.le (number_float x) (number_float y).

(** A control holding nothing but a status. *)
Definition control (s : string) : yaml := YMap [(YStr "status", YStr s)].

(** A document with the given controls. *)
Definition mapping_of (controls : yaml) : yaml :=
  YMap [(YStr "controls", controls)].

(** The exception of [doc['controls']] when [doc] has no such key. *)
Definition missing_controls_error (doc : yaml) : exn :=
  match doc with
  | YMap _ => KeyError "controls"
  | _ => TypeError
  end.

(** The first statement of [generate_html]: [mapping['controls']] is
    handed to the aggregator. *)
Definition coverage_of (mapping : yaml) : result CoverageStats :=
  (controls <- subscript mapping "controls" ;; calculate_coverage controls)%result.

(* ===================================================================== *)
(** ** Inputs used as examples *)
(* ===================================================================== *)

Definition example_now : datetime :=
  {| year := 2026; month_of := November; day := 4 |}.

(** Two implemented controls, one in progress, one not implemented. *)
Definition four_controls : list yaml :=
  [control "implemented"; control "implemented";
   control "in_progress"; control "not_implemented"].

(** Eighty controls of which twenty-three are implemented: 28.75%. *)
Definition controls_23_of_80 : list yaml :=
  repeat (control "implemented") 23 ++ repeat (control "not_implemented") 57.

(** Two controls, the second with a status outside the three. *)
Definition unknown_after_not_implemented : list yaml :=
  [control "not_implemented"; control "unknown"].

(** A system that refuses nothing: the directory can be created, the
    report written and every line printed. *)
Definition willing : system :=
  {| mkdir_error := None;
     write_result := fun _ => Written;
     print_error := fun _ => None |}.



(** A working directory with the mapping file [doc] and an older report. *)
Definition world_with (doc : yaml) : world :=
  {| input := Document doc;
     reports := Directory (Some "previous report"%string);
     stdout := [];
     os := willing |}.

(** A working directory where the mapping file is as [file] and nothing
    else is there yet. *)
Definition empty_directory (file : input_file) : world :=
  {| input := file; reports := NoEntry; stdout := []; os := willing |}.

(** A mapping file that parses and has no [controls] key. *)
Definition document_without_controls : yaml :=
  YMap [(YStr "framework", YStr "NIST 800-53")].

(** The module completed with some definition of
    [generate_control_sections], for the properties of [generate_html]
    that do not depend on the name being unbound. *)
Definition sectioned_globals : globals :=
  {| generate_control_sections :=
       Some (fun _ => Ok "<section></section>"%string) |}.

(** The text of the report for a date, statistics and control
    sections: the value of the f-string of [generate_html]. *)
Definition html_text (now : datetime) (coverage : CoverageStats)
    (sections : string) : string :=
  (html_before_date ++ strftime now ++ html_before_total
   ++ str_int (total coverage) ++ html_before_sections ++ sections
   ++ html_after_sections)%string.

(** The last four statements of [generate_html], once the text is
    there. *)
Definition write_and_announce (html : string) (coverage : CoverageStats)
  : M unit :=
  bind mkdir_reports (fun _ =>
  bind (write_report html) (fun _ =>
  bind (print confirmation_line) (fun _ =>
  print (summary_line coverage)))).

(** A later date than [example_now]. *)
Definition example_later : datetime :=
  {| year := 2026; month_of := December; day := 25 |}.

(** A mapping file that holds a list of controls at its top level
    instead of a mapping with a [controls] key. *)
Definition top_level_list : yaml := YSeq four_controls.

(* ===================================================================== *)
(** ** Rounding to the nearest double is monotone *)
(* ===================================================================== *)

Module Float64Facts.
Import Float64.
Local Open Scope R_scope.

Lemma rne_div_le_iff (a b z : Z) :
  (0 < b)%Z ->
  (rne_div a b <= z)%Z <->
  (2 * a < (2 * z + 1) * b
   \/ (2 * a = (2 * z + 1) * b /\ Z.even z = true))%Z.
Proof.
  intros Hb. unfold rne_div.
  pose proof (Z.div_mod a b ltac:(lia)) as Hdiv.
  pose proof (Z.mod_pos_bound a b Hb) as Hmod.
  set (q := (a / b)%Z) in *. set (r := (a mod b)%Z) in *.
  clearbody q r.
  destruct (Z.compare_spec (2 * r) b) as [Heq|Hlt|Hgt].
  - assert (Ha : (2 * a = (2 * q + 1) * b)%Z) by nia.
    destruct (Z.even q) eqn:Eq.
    + split.
      * intros Hle. destruct (Z.eq_dec q z) as [->|Hne].
        -- right. now split.
        -- left. nia.
      * intros [H|[H _]]; nia.
    + split.
      * intros Hle. left. nia.
      * intros [H|[H Hz]]; [nia|].
        assert (q = z) by nia. subst. congruence.
  - split.
    + intros Hle. left. nia.
    + intros [H|[H _]]; nia.
  - split.
    + intros Hle. left. nia.
    + intros [H|[H _]]; nia.
Qed.

Lemma rne_div_mono (a b c d : Z) :
  (0 < b)%Z -> (0 < d)%Z -> (a * d <= c * b)%Z ->
  (rne_div a b <= rne_div c d)%Z.
Proof.
  intros Hb Hd Hle.
  apply (rne_div_le_iff a b _ Hb).
  destruct (proj1 (rne_div_le_iff c d (rne_div c d) Hd) (Z.le_refl _))
    as [H|[H Hev]].
  - left. nia.
  - destruct (Z.eq_dec (a * d) (c * b)) as [E|E].
    + right. split; [nia|assumption].
    + left. nia.
Qed.

Lemma rne_div_1 (z : Z) : rne_div z 1 = z.
Proof.
  unfold rne_div. rewrite Z.mod_1_r, Z.div_1_r. reflexivity.
Qed.

End Float64Facts.

Module Float64Reals.
Import Float64 Float64Facts.
Local Open Scope R_scope.

Lemma pow2_pos (k : Z) : 0 < powerRZ 2 k.
Proof. apply powerRZ_lt. lra. Qed.

Lemma pow2_add (j k : Z) : powerRZ 2 (j + k) = powerRZ 2 j * powerRZ 2 k.
Proof. apply powerRZ_add. lra. Qed.

Lemma pow2_IZR (k : Z) : (0 <= k)%Z -> IZR (2 ^ k) = powerRZ 2 k.
Proof.
  intros Hk. destruct k as [|p|p]; [reflexivity| |lia].
  unfold powerRZ. rewrite pow_IZR. now rewrite positive_nat_Z.
Qed.

Lemma pow2_ge_1 (k : Z) : (0 <= k)%Z -> 1 <= powerRZ 2 k.
Proof.
  intros Hk. rewrite <- pow2_IZR by assumption.
  apply IZR_le. pose proof (Z.pow_pos_nonneg 2 k ltac:(lia) Hk). lia.
Qed.

Lemma pow2_le (j k : Z) : (j <= k)%Z -> powerRZ 2 j <= powerRZ 2 k.
Proof.
  intros H. replace k with (j + (k - j))%Z by lia. rewrite pow2_add.
  pose proof (pow2_pos j). pose proof (pow2_ge_1 (k - j) ltac:(lia)). nra.
Qed.

Lemma pow2_lt_inv (j k : Z) : powerRZ 2 j < powerRZ 2 k -> (j < k)%Z.
Proof.
  intros H. destruct (Z_lt_le_dec j k) as [|Hle]; [assumption|].
  apply pow2_le in Hle. lra.
Qed.

Lemma pow2_opp (k : Z) : powerRZ 2 (- k) * powerRZ 2 k = 1.
Proof.
  rewrite <- pow2_add. replace (- k + k)%Z with 0%Z by lia. reflexivity.
Qed.

Lemma scale_num_IZR (a e : Z) :
  IZR (scale_num a e) = IZR a * powerRZ 2 (Z.max 0 (- e)).
Proof. unfold scale_num. rewrite mult_IZR, pow2_IZR by lia. reflexivity. Qed.

Lemma scale_den_IZR (b e : Z) :
  IZR (scale_den b e) = IZR b * powerRZ 2 (Z.max 0 e).
Proof. unfold scale_den. rewrite mult_IZR, pow2_IZR by lia. reflexivity. Qed.

Lemma scale_den_pos (b e : Z) : (0 < b)%Z -> (0 < scale_den b e)%Z.
Proof.
  intros Hb. unfold scale_den.
  pose proof (Z.pow_pos_nonneg 2 (Z.max 0 e) ltac:(lia) ltac:(lia)). nia.
Qed.

Lemma scale_ratio (a b e : Z) :
  (0 < b)%Z ->
  ratio (scale_num a e) (scale_den b e) = ratio a b * powerRZ 2 (- e).
Proof.
  intros Hb. unfold ratio. rewrite scale_num_IZR, scale_den_IZR.
  assert (IZR b <> 0) by (apply not_0_IZR; lia).
  pose proof (pow2_pos (Z.max 0 e)).
  replace (powerRZ 2 (Z.max 0 (- e)))
    with (powerRZ 2 (- e) * powerRZ 2 (Z.max 0 e)).
  - field. split; lra.
  - rewrite <- pow2_add. f_equal. lia.
Qed.

Lemma ratio_le_cross (a b c d : Z) :
  (0 < b)%Z -> (0 < d)%Z ->
  ratio a b <= ratio c d -> (a * d <= c * b)%Z.
Proof.
  intros Hb Hd H. apply le_IZR. rewrite !mult_IZR.
  apply IZR_lt in Hb, Hd. unfold ratio in H.
  apply (Rmult_le_compat_r (IZR b * IZR d)) in H; [|nra].
  replace (IZR a / IZR b * (IZR b * IZR d)) with (IZR a * IZR d) in H
    by (field; lra).
  replace (IZR c / IZR d * (IZR b * IZR d)) with (IZR c * IZR b) in H
    by (field; lra).
  assumption.
Qed.

Lemma ratio_int (z : Z) : ratio z 1 = IZR z.
Proof. unfold ratio. field. Qed.

Lemma rne_div_mono_ratio (a b c d : Z) :
  (0 < b)%Z -> (0 < d)%Z -> ratio a b <= ratio c d ->
  (rne_div a b <= rne_div c d)%Z.
Proof.
  intros Hb Hd H. apply rne_div_mono; try assumption.
  now apply ratio_le_cross.
Qed.

Lemma rne_div_le_ratio (a b z : Z) :
  (0 < b)%Z -> ratio a b <= IZR z -> (rne_div a b <= z)%Z.
Proof.
  intros Hb H. rewrite <- (rne_div_1 z).
  apply rne_div_mono_ratio; [assumption|lia|]. now rewrite ratio_int.
Qed.

Lemma rne_div_ge_ratio (a b z : Z) :
  (0 < b)%Z -> IZR z <= ratio a b -> (z <= rne_div a b)%Z.
Proof.
  intros Hb H. rewrite <- (rne_div_1 z) at 1.
  apply rne_div_mono_ratio; [lia|assumption|]. now rewrite ratio_int.
Qed.

Lemma log2_bounds (a : Z) :
  (0 < a)%Z ->
  powerRZ 2 (Z.log2 a) <= IZR a < powerRZ 2 (Z.log2 a + 1).
Proof.
  intros Ha. pose proof (Z.log2_spec a Ha) as [Hlo Hhi].
  pose proof (Z.log2_nonneg a).
  rewrite <- !pow2_IZR by lia. split.
  - now apply IZR_le.
  - apply IZR_lt. now rewrite <- Z.add_1_r in Hhi.
Qed.

Lemma ilog2_ratio_spec (a b : Z) :
  (0 < a)%Z -> (0 < b)%Z ->
  powerRZ 2 (ilog2_ratio a b) <= ratio a b < powerRZ 2 (ilog2_ratio a b + 1).
Proof.
  intros Ha Hb. unfold ilog2_ratio.
  set (k := (Z.log2 a - Z.log2 b)%Z).
  pose proof (log2_bounds a Ha) as [Ha1 Ha2].
  pose proof (log2_bounds b Hb) as [Hb1 Hb2].
  assert (Hib : 0 < IZR b) by now apply IZR_lt.
  assert (Hlow : powerRZ 2 (k - 1) < ratio a b).
  { unfold ratio. apply (Rmult_lt_reg_r (IZR b)); [assumption|].
    replace (IZR a / IZR b * IZR b) with (IZR a) by (field; lra).
    replace (Z.log2 a) with ((k - 1) + (Z.log2 b + 1))%Z in Ha1
      by (unfold k; lia).
    rewrite pow2_add in Ha1. pose proof (pow2_pos (k - 1)). nra. }
  assert (Hhigh : ratio a b < powerRZ 2 (k + 1)).
  { unfold ratio. apply (Rmult_lt_reg_r (IZR b)); [assumption|].
    replace (IZR a / IZR b * IZR b) with (IZR a) by (field; lra).
    replace (Z.log2 a + 1)%Z with ((k + 1) + Z.log2 b)%Z in Ha2
      by (unfold k; lia).
    rewrite pow2_add in Ha2. pose proof (pow2_pos (k + 1)). nra. }
  pose proof (scale_ratio a b k Hb) as Hs.
  pose proof (scale_den_pos b k Hb) as Hd.
  pose proof (pow2_opp k) as Hopp. pose proof (pow2_pos k).
  pose proof (pow2_pos (- k)).
  destruct (Z.ltb_spec (scale_num a k) (scale_den b k)) as [Hlt|Hge].
  - replace (k - 1 + 1)%Z with k by lia. split; [lra|].
    assert (ratio (scale_num a k) (scale_den b k) < 1).
    { unfold ratio. apply (Rmult_lt_reg_r (IZR (scale_den b k)));
        [now apply IZR_lt|].
      replace (IZR (scale_num a k) / IZR (scale_den b k) * IZR (scale_den b k))
        with (IZR (scale_num a k)).
      - rewrite Rmult_1_l. now apply IZR_lt.
      - field. apply not_0_IZR. lia. }
    nra.
  - split; [|assumption].
    assert (1 <= ratio (scale_num a k) (scale_den b k)).
    { unfold ratio. apply (Rmult_le_reg_r (IZR (scale_den b k)));
        [now apply IZR_lt|].
      replace (IZR (scale_num a k) / IZR (scale_den b k) * IZR (scale_den b k))
        with (IZR (scale_num a k)).
      - rewrite Rmult_1_l. now apply IZR_le.
      - field. apply not_0_IZR. lia. }
    nra.
Qed.


Lemma nearest_F2R (a b : Z) :
  (0 < a)%Z ->
  F2R (nearest a b)
  = IZR (rne_div (scale_num a (exponent_of a b)) (scale_den b (exponent_of a b)))
    * powerRZ 2 (exponent_of a b).
Proof.
  intros Ha. unfold nearest, exponent_of.
  destruct (Z.leb_spec a 0) as [|_]; [lia|].
  set (e := Z.max (ilog2_ratio a b - (prec - 1)) emin).
  set (m := rne_div (scale_num a e) (scale_den b e)).
  destruct (Z.eqb_spec m (2 ^ prec)) as [Hm|Hm]; [|reflexivity].
  unfold F2R. cbn [mant expo]. rewrite Hm.
  rewrite !pow2_IZR by (unfold prec; lia). rewrite pow2_add.
  replace prec with ((prec - 1) + 1)%Z at 2 by lia. rewrite pow2_add. ring.
Qed.

Lemma nearest_nonpos (a b : Z) : (a <= 0)%Z -> nearest a b = zero.
Proof.
  intros Ha. unfold nearest. now destruct (Z.leb_spec a 0) as [_|]; [|lia].
Qed.

Lemma F2R_zero : F2R zero = 0.
Proof. unfold F2R, zero. cbn [mant]. ring. Qed.

Lemma ratio_pos (a b : Z) : (0 < a)%Z -> (0 < b)%Z -> 0 < ratio a b.
Proof.
  intros Ha Hb. apply IZR_lt in Ha, Hb. unfold ratio.
  apply Rdiv_lt_0_compat; assumption.
Qed.

Lemma nearest_nonneg (a b : Z) : (0 < b)%Z -> 0 <= F2R (nearest a b).
Proof.
  intros Hb. destruct (Z_lt_le_dec 0 a) as [Ha|Ha].
  - rewrite nearest_F2R by assumption.
    apply Rmult_le_pos; [|left; apply pow2_pos].
    apply IZR_le. apply rne_div_ge_ratio.
    + now apply scale_den_pos.
    + rewrite scale_ratio by assumption.
      pose proof (ratio_pos a b Ha Hb). pose proof (pow2_pos (- exponent_of a b)).
      nra.
  - rewrite nearest_nonpos by assumption. rewrite F2R_zero. lra.
Qed.

Lemma ratio_pos_inv (a b : Z) : (0 < b)%Z -> 0 < ratio a b -> (0 < a)%Z.
Proof.
  intros Hb H. apply lt_IZR. apply IZR_lt in Hb. unfold ratio in H.
  apply (Rmult_lt_compat_r (IZR b)) in H; [|assumption].
  replace (IZR a / IZR b * IZR b) with (IZR a) in H by (field; lra). lra.
Qed.

(** Rounding to the nearest double is monotone. *)
Lemma nearest_mono (a b c d : Z) :
  (0 < b)%Z -> (0 < d)%Z -> ratio a b <= ratio c d ->
  F2R (nearest a b) <= F2R (nearest c d).
Proof.
  intros Hb Hd Hle.
  destruct (Z_lt_le_dec 0 a) as [Ha|Ha];
    [|rewrite (nearest_nonpos a) by assumption; rewrite F2R_zero;
      now apply nearest_nonneg].
  assert (Hc : (0 < c)%Z).
  { apply (ratio_pos_inv c d Hd). pose proof (ratio_pos a b Ha Hb). lra. }
  rewrite !nearest_F2R by assumption.
  pose proof (ilog2_ratio_spec a b Ha Hb) as [Hk1 Hk1'].
  pose proof (ilog2_ratio_spec c d Hc Hd) as [Hk2 Hk2'].
  assert (Hk : (ilog2_ratio a b <= ilog2_ratio c d)%Z).
  { assert (ilog2_ratio a b < ilog2_ratio c d + 1)%Z; [|lia].
    apply pow2_lt_inv. lra. }
  unfold exponent_of.
  set (k1 := ilog2_ratio a b) in *. set (k2 := ilog2_ratio c d) in *.
  set (e1 := Z.max (k1 - (prec - 1)) emin).
  set (e2 := Z.max (k2 - (prec - 1)) emin).
  pose proof (scale_ratio a b e1 Hb) as Hs1.
  pose proof (scale_ratio c d e2 Hd) as Hs2.
  pose proof (scale_den_pos b e1 Hb) as Hd1.
  pose proof (scale_den_pos d e2 Hd) as Hd2.
  destruct (Z.eq_dec e1 e2) as [He|He].
  - rewrite <- He in *. apply Rmult_le_compat_r; [left; apply pow2_pos|].
    apply IZR_le. apply rne_div_mono_ratio; try assumption.
    rewrite Hs1, Hs2. pose proof (pow2_pos (- e1)). nra.
  - assert (He12 : (e1 + 1 <= e2)%Z) by (unfold e1, e2 in *; lia).
    assert (He2 : e2 = (k2 - (prec - 1))%Z) by (unfold e1, e2 in *; lia).
    assert (Hm1 : (rne_div (scale_num a e1) (scale_den b e1) <= 2 ^ prec)%Z).
    { apply rne_div_le_ratio; [assumption|]. rewrite Hs1.
      rewrite pow2_IZR by (unfold prec; lia).
      replace prec with ((k1 + 1) + (prec - 1 - k1))%Z by lia.
      rewrite pow2_add.
      assert (powerRZ 2 (- e1) <= powerRZ 2 (prec - 1 - k1))
        by (apply pow2_le; unfold e1; lia).
      pose proof (pow2_pos (- e1)). pose proof (pow2_pos k1). nra. }
    assert (Hm2 : (2 ^ (prec - 1) <= rne_div (scale_num c e2) (scale_den d e2))%Z).
    { apply rne_div_ge_ratio; [assumption|]. rewrite Hs2.
      rewrite pow2_IZR by (unfold prec; lia).
      replace (prec - 1)%Z with (k2 + (- e2))%Z by lia.
      rewrite pow2_add. pose proof (pow2_pos (- e2)). nra. }
    apply IZR_le in Hm1, Hm2.
    rewrite pow2_IZR in Hm1, Hm2 by (unfold prec; lia).
    assert (Hp : powerRZ 2 prec * powerRZ 2 e1
                 <= powerRZ 2 (prec - 1) * powerRZ 2 e2).
    { rewrite <- !pow2_add. apply pow2_le. lia. }
    pose proof (pow2_pos e1). pose proof (pow2_pos e2). nra.
Qed.

(** The comparison of two doubles is the comparison of their values. *)
Lemma le_F2R (x y : t) : le x y <-> F2R x <= F2R y.
Proof.
  unfold le, leb, F2R.
  set (e := Z.min (expo x) (expo y)).
  rewrite Z.leb_le.
  assert (Hx : IZR (mant x * 2 ^ (expo x - e)) * powerRZ 2 e
               = IZR (mant x) * powerRZ 2 (expo x)).
  { rewrite mult_IZR, pow2_IZR by (unfold e; lia).
    rewrite Rmult_assoc, <- pow2_add. do 2 f_equal. lia. }
  assert (Hy : IZR (mant y * 2 ^ (expo y - e)) * powerRZ 2 e
               = IZR (mant y) * powerRZ 2 (expo y)).
  { rewrite mult_IZR, pow2_IZR by (unfold e; lia).
    rewrite Rmult_assoc, <- pow2_add. do 2 f_equal. lia. }
  rewrite <- Hx, <- Hy. pose proof (pow2_pos e). split.
  - intros Hle. apply IZR_le in Hle. nra.
  - intros Hle. apply le_IZR. nra.
Qed.


Lemma product_ratio (m e : Z) :
  ratio (scale_num m (- e)) (scale_den 1 (- e)) = IZR m * powerRZ 2 e.
Proof.
  rewrite scale_ratio by lia. rewrite ratio_int. now rewrite Z.opp_involutive.
Qed.

Lemma mul_F2R_mono (x x' y : t) :
  F2R x <= F2R x' -> 0 <= F2R y -> F2R (mul x y) <= F2R (mul x' y).
Proof.
  intros Hx Hy. unfold mul.
  apply nearest_mono; try (apply scale_den_pos; lia).
  rewrite !product_ratio, !mult_IZR, !pow2_add. unfold F2R in *. nra.
Qed.

Lemma decimal_digits_mono (ndigits : nat) (x x' : t) :
  F2R x <= F2R x' ->
  (decimal_digits ndigits x <= decimal_digits ndigits x')%Z.
Proof.
  intros Hx. unfold decimal_digits.
  apply rne_div_mono_ratio; try (apply scale_den_pos; lia).
  rewrite !product_ratio, !mult_IZR, !Rmult_assoc.
  apply Rmult_le_compat_l; [|exact Hx].
  apply IZR_le. apply Z.pow_nonneg. lia.
Qed.

Lemma ratio_mono_num (a c b : Z) :
  (0 < b)%Z -> (a <= c)%Z -> ratio a b <= ratio c b.
Proof.
  intros Hb H. apply IZR_lt in Hb. apply IZR_le in H. unfold ratio.
  apply Rmult_le_compat_r; [|assumption].
  left. now apply Rinv_0_lt_compat.
Qed.

Lemma round_F2R_mono (ndigits : nat) (x x' : t) :
  F2R x <= F2R x' -> F2R (round ndigits x) <= F2R (round ndigits x').
Proof.
  intros Hx. unfold round.
  assert (0 < 10 ^ Z.of_nat ndigits)%Z by (apply Z.pow_pos_nonneg; lia).
  apply nearest_mono; try assumption.
  apply ratio_mono_num; [assumption|]. now apply decimal_digits_mono.
Qed.

Lemma ratio_antitone_den (a b d : Z) :
  (0 <= a)%Z -> (0 < d)%Z -> (d <= b)%Z -> ratio a b <= ratio a d.
Proof.
  intros Ha Hd Hdb. unfold ratio.
  apply IZR_le in Ha, Hdb. apply IZR_lt in Hd.
  apply Rmult_le_compat_l; [assumption|].
  apply Rinv_le_contravar; assumption.
Qed.

End Float64Reals.

(* ===================================================================== *)
(** ** The arithmetic agrees with IEEE 754 on small lists *)
(* ===================================================================== *)

(** Up to 64 controls, every percentage the script can compute is the
    one obtained with the standard library's binary64 operations. *)
Lemma percentages_agree_with_ieee :
  forallb (fun n => forallb (fun i => agrees_with_ieee i n) (upto (Z.to_nat n)))
          (tl (upto 64)) = true.
Proof. vm_compute. reflexivity. Qed.


(* ===================================================================== *)
(** ** The aggregator counts what the list holds *)
(* ===================================================================== *)

Section Aggregator.

Variable status : string.

Lemma sum_matching_count (cs : list yaml) :
  forallb has_status cs = true ->
  forall acc, sum_matching status cs acc = Ok (acc + count (status_is status) cs).
Proof.
  unfold count.
  induction cs as [|c cs IH]; intros Hcs acc; simpl.
  - f_equal. lia.
  - simpl in Hcs. apply andb_true_iff in Hcs as [Hc Hrest].
    unfold has_status in Hc. unfold status_is at 1.
    destruct (subscript c "status") as [st|e]; [|discriminate].
    simpl. rewrite (IH Hrest).
    destruct (eq_str st status); simpl; f_equal; lia.
Qed.

Lemma count_status_seq (cs : list yaml) :
  forallb has_status cs = true ->
  count_status status (YSeq cs) = Ok (count (status_is status) cs).
Proof.
  intros Hcs. unfold count_status. simpl.
  now rewrite (sum_matching_count cs Hcs).
Qed.

Lemma count_nonneg (cs : list yaml) : 0 <= count (status_is status) cs.
Proof. unfold count. lia. Qed.

End Aggregator.

(** On a list of controls that all have a status the aggregator returns,
    and every field is the count the list gives. *)
Lemma calculate_coverage_seq (cs : list yaml) :
  forallb has_status cs = true ->
  calculate_coverage (YSeq cs)
  = Ok {| total := Z.of_nat (List.length cs);
          implemented := count (status_is "implemented") cs;
          in_progress := count (status_is "in_progress") cs;
          not_implemented := count (status_is "not_implemented") cs;
          percentage :=
            coverage_percentage (count (status_is "implemented") cs)
                                (Z.of_nat (List.length cs)) |}.
Proof.
  intros Hcs. unfold calculate_coverage.
  rewrite !count_status_seq by assumption. reflexivity.
Qed.

Lemma recognized_has_status (c : yaml) : recognized c = true -> has_status c = true.
Proof.
  unfold recognized, status_is, has_status.
  destruct (subscript c "status"); [reflexivity|discriminate].
Qed.

Lemma forallb_recognized_has_status (cs : list yaml) :
  forallb recognized cs = true -> forallb has_status cs = true.
Proof.
  rewrite !forallb_forall. intros H c Hc.
  apply recognized_has_status. now apply H.
Qed.

(** The three buckets of a recognized control: exactly one takes it. *)
Lemma recognized_one_bucket (c : yaml) :
  recognized c = true ->
  (if status_is "implemented" c then 1 else 0)
  + (if status_is "in_progress" c then 1 else 0)
  + (if status_is "not_implemented" c then 1 else 0) = 1.
Proof.
  unfold recognized, status_is.
  destruct (subscript c "status") as [st|e]; [|discriminate].
  destruct st; simpl; try discriminate.
  destruct (String.eqb s "implemented") eqn:E1;
    destruct (String.eqb s "in_progress") eqn:E2;
    destruct (String.eqb s "not_implemented") eqn:E3;
    try reflexivity; try discriminate;
    repeat match goal with
           | H : String.eqb _ _ = true |- _ => apply String.eqb_eq in H; subst
           end; discriminate.
Qed.

Lemma count_cons (p : yaml -> bool) (c : yaml) (cs : list yaml) :
  count p (c :: cs) = (if p c then 1 else 0) + count p cs.
Proof.
  unfold count. cbn [filter]. destruct (p c); [|lia].
  cbn [List.length]. lia.
Qed.

Lemma buckets_partition (cs : list yaml) :
  forallb recognized cs = true ->
  count (status_is "implemented") cs + count (status_is "in_progress") cs
  + count (status_is "not_implemented") cs = Z.of_nat (List.length cs).
Proof.
  induction cs as [|c cs IH]; intros H.
  - reflexivity.
  - simpl in H. apply andb_true_iff in H as [Hc Hcs].
    rewrite !count_cons. specialize (IH Hcs).
    pose proof (recognized_one_bucket c Hc).
    change (List.length (c :: cs)) with (S (List.length cs)). lia.
Qed.

(* ===================================================================== *)
(** ** How a run ends *)
(* ===================================================================== *)

Lemma generate_html_coverage_raises g now mapping e w :
  coverage_of mapping = Raise e ->
  generate_html g now mapping w = (Raise e, w).
Proof.
  unfold coverage_of, generate_html, bind, lift. now intros ->.
Qed.



Lemma main_document g now w doc :
  input w = Document doc -> main g now w = generate_html g now doc w.
Proof.
  intros H. unfold main, bind, load_mapping. now rewrite H.
Qed.

Lemma load_mapping_raises w :
  (forall doc, input w <> Document doc) ->
  load_mapping w
  = (Raise match input w with
           | Absent => FileNotFoundError
           | Forbidden => PermissionError
           | IsDirectory => IsADirectoryError
           | Undecodable => UnicodeDecodeError
           | _ => YAMLError
           end, w).
Proof.
  intros H. unfold load_mapping.
  destruct (input w) as [| | | | |doc]; try reflexivity. now destruct (H doc).
Qed.

Lemma main_loader_raises g now w e :
  load_mapping w = (Raise e, w) -> main g now w = (Raise e, w).
Proof.
  intros H. unfold main, bind. now rewrite H.
Qed.


(** Either the template could not be evaluated, and nothing has
    happened, or [generate_html] goes on to write and to print. *)
Lemma generate_html_cases g now mapping w :
  (exists e, generate_html g now mapping w = (Raise e, w))
  \/ (exists controls stats f sections,
        subscript mapping "controls" = Ok controls
        /\ calculate_coverage controls = Ok stats
        /\ generate_control_sections g = Some f
        /\ f controls = Ok sections
        /\ generate_html g now mapping w
           = write_and_announce (html_text now stats sections) stats w).
Proof.
  unfold generate_html, render, global_function.
  unfold bind at 1. unfold lift at 1.
  destruct (subscript mapping "controls") as [controls|e] eqn:Esub; simpl;
    [|left; now exists e].
  destruct (calculate_coverage controls) as [stats|e] eqn:Ecov; simpl;
    [|left; now exists e].
  unfold bind at 1. unfold lift at 1.
  destruct (generate_control_sections g) as [f|] eqn:Eg; simpl;
    [|left; now eexists].
  destruct (f controls) as [sections|e] eqn:Ef; simpl; [|left; now exists e].
  right. exists controls, stats, f, sections. repeat split; assumption.
Qed.

(** When writing and printing end well, [reports] was absent or a
    directory, the report holds the text and the two lines follow what
    had been printed. *)
Lemma write_and_announce_ok html stats w :
  fst (write_and_announce html stats w) = Ok tt ->
  reports w <> NotADirectory
  /\ snd (write_and_announce html stats w)
     = {| input := input w;
          reports := Directory (Some html);
          stdout := stdout w ++ [confirmation_line; summary_line stats];
          os := os w |}.
Proof.
  unfold write_and_announce, bind, mkdir_reports, write_report, print,
    set_reports, set_stdout.
  destruct (reports w) as [|report|] eqn:R; simpl.
  - destruct (mkdir_error (os w)); simpl; [discriminate|].
    destruct (write_result (os w) html); simpl; try discriminate.
    destruct (print_error (os w) confirmation_line); simpl; [discriminate|].
    destruct (print_error (os w) (summary_line stats)); simpl; [discriminate|].
    intros _. split; [discriminate|]. now rewrite <- app_assoc.
  - rewrite R. simpl.
    destruct (write_result (os w) html); simpl; try discriminate.
    destruct (print_error (os w) confirmation_line); simpl; [discriminate|].
    destruct (print_error (os w) (summary_line stats)); simpl; [discriminate|].
    intros _. split; [discriminate|]. now rewrite <- app_assoc.
  - discriminate.
Qed.

(** What a run that ends well has read, computed, written and printed. *)
Lemma main_ok_inv g now w :
  fst (main g now w) = Ok tt ->
  exists doc controls stats f sections,
    input w = Document doc
    /\ subscript doc "controls" = Ok controls
    /\ calculate_coverage controls = Ok stats
    /\ generate_control_sections g = Some f
    /\ f controls = Ok sections
    /\ reports w <> NotADirectory
    /\ snd (main g now w)
       = {| input := input w;
            reports := Directory (Some (html_text now stats sections));
            stdout := stdout w ++ [confirmation_line; summary_line stats];
            os := os w |}.
Proof.
  intros Hok.
  destruct (input w) as [| | | | |doc] eqn:E;
    try (unfold main, bind, load_mapping in Hok; rewrite E in Hok;
         discriminate).
  rewrite (main_document _ _ _ _ E) in *.
  destruct (generate_html_cases g now doc w)
    as [[e H]|(controls & stats & f & sections & H1 & H2 & H3 & H4 & H)];
    rewrite H in *; [discriminate|].
  destruct (write_and_announce_ok _ _ _ Hok) as [Hrep Hw].
  exists doc, controls, stats, f, sections. now rewrite E in Hw.
Qed.

(* ===================================================================== *)
(** ** The aggregator *)
(* ===================================================================== *)

(** C1, as the specification states it, fails on 23 implemented controls
    out of 80: [100 * 23 / 80] is 28.75 and rounds to 28.8, while the
    script rounds [(23 / 80) * 100], the double just below 28.75, to
    28.7. The exact quotient rounded to tenths is 288 tenths as well. *)
Lemma percentage_23_of_80_differs :
  Z.of_nat (List.length controls_23_of_80) = 80
  /\ count (status_is "implemented") controls_23_of_80 = 23
  /\ exists stats,
       calculate_coverage (YSeq controls_23_of_80) = Ok stats
       /\ percentage stats = PyFloat (Float64.nearest 287 10)
       /\ spec_percentage 23 80 = Float64.nearest 288 10
       /\ Float64.rne_div (10 * (100 * 23)) 80 = 288
       /\ percentage stats <> PyFloat (spec_percentage 23 80).
Proof.
  split; [reflexivity|]. split; [reflexivity|].
  eexists. split; [vm_compute; reflexivity|].
  split; [reflexivity|]. split; [vm_compute; reflexivity|].
  split; [reflexivity|]. vm_compute. discriminate.
Qed.

(** C1, amended: on a list of [n] controls, each with a status, of which
    [i] are implemented, the aggregator returns; for [n > 0] its
    percentage is [round((i / n) * 100, 1)], the quotient being rounded
    before it is multiplied; the empty list gives zeros everywhere, the
    percentage being the integer 0. *)
Theorem percentage_is_rounded_scaled_quotient (cs : list yaml) (n i : Z) :
  forallb has_status cs = true ->
  n = Z.of_nat (List.length cs) ->
  i = count (status_is "implemented") cs ->
  exists stats,
    calculate_coverage (YSeq cs) = Ok stats
    /\ total stats = n
    /\ implemented stats = i
    /\ (0 < n -> percentage stats = PyFloat (script_percentage i n))
    /\ (n = 0 ->
        stats = {| total := 0; implemented := 0; in_progress := 0;
                   not_implemented := 0; percentage := PyInt 0 |}).
Proof.
  intros Hcs -> ->. eexists. split; [now apply calculate_coverage_seq|].
  cbn [total implemented percentage]. repeat split.
  - intros Hn. unfold coverage_percentage.
    apply Z.ltb_lt in Hn. now rewrite Hn.
  - intros Hn. destruct cs; [reflexivity|discriminate].
Qed.

Lemma percentage_is_rounded_scaled_quotient_witness :
  exists stats,
    calculate_coverage (YSeq controls_23_of_80) = Ok stats
    /\ total stats = 80
    /\ implemented stats = 23
    /\ (0 < 80 -> percentage stats = PyFloat (script_percentage 23 80))
    /\ (80 = 0 ->
        stats = {| total := 0; implemented := 0; in_progress := 0;
                   not_implemented := 0; percentage := PyInt 0 |}).
Proof.
  exact (percentage_is_rounded_scaled_quotient
           controls_23_of_80 80 23 eq_refl eq_refl eq_refl).
Defined.

(** C2: when every control's status is one of the three recognized
    values, the three counts of the statistics add up to the total. *)
Theorem buckets_sum_to_total (cs : list yaml) :
  forallb recognized cs = true ->
  exists stats,
    calculate_coverage (YSeq cs) = Ok stats
    /\ implemented stats + in_progress stats + not_implemented stats
       = total stats.
Proof.
  intros Hcs. eexists. split.
  - apply calculate_coverage_seq. now apply forallb_recognized_has_status.
  - cbn [total implemented in_progress not_implemented].
    now apply buckets_partition.
Qed.

Lemma buckets_sum_to_total_witness :
  exists stats,
    calculate_coverage (YSeq four_controls) = Ok stats
    /\ implemented stats + in_progress stats + not_implemented stats
       = total stats.
Proof.
  exact (buckets_sum_to_total four_controls eq_refl).
Defined.

(** C6: on two implemented controls, one in progress and one not
    implemented the aggregator returns total 4, implemented 2,
    in progress 1, not implemented 1 and the percentage 50.0. *)
Theorem four_controls_statistics :
  calculate_coverage (YSeq four_controls)
  = Ok {| total := 4; implemented := 2; in_progress := 1;
          not_implemented := 1;
          percentage := PyFloat (Float64.of_int 50) |}
  /\ str_number (PyFloat (Float64.of_int 50)) = "50.0"%string.
Proof.
  split; vm_compute; reflexivity.
Qed.

(* ===================================================================== *)
(** ** The loader and the failures of a run *)
(* ===================================================================== *)

(** C3, as the specification states it, fails on a document without the
    [controls] key: the loader returns the document and does not fail. *)
Lemma loader_returns_document_without_controls :
  (forall v, subscript document_without_controls "controls" <> Ok v)
  /\ load_mapping (world_with document_without_controls)
     = (Ok document_without_controls, world_with document_without_controls)
  /\ ~ (exists e,
          fst (load_mapping (world_with document_without_controls)) = Raise e).
Proof.
  split; [intros v; discriminate|]. split; [reflexivity|].
  intros [e He]. discriminate.
Qed.

(** C3, amended: a document that parses and has no top-level [controls]
    key is returned by the loader; the run then fails in the renderer at
    [mapping['controls']], with [KeyError] for a mapping and with
    [TypeError] for any other document, and leaves the report file, the
    report directory and the standard output as they were. *)
Theorem missing_controls_fails_in_renderer g now w doc :
  input w = Document doc ->
  (forall v, subscript doc "controls" <> Ok v) ->
  load_mapping w = (Ok doc, w)
  /\ generate_html g now doc w = (Raise (missing_controls_error doc), w)
  /\ main g now w = (Raise (missing_controls_error doc), w).
Proof.
  intros Hin Hmissing.
  assert (Hsub : subscript doc "controls" = Raise (missing_controls_error doc)).
  { destruct doc; try reflexivity. simpl in *.
    destruct (lookup "controls" entries) as [v|]; [|reflexivity].
    now destruct (Hmissing v). }
  assert (Hgen : generate_html g now doc w
                 = (Raise (missing_controls_error doc), w)).
  { apply generate_html_coverage_raises. unfold coverage_of. now rewrite Hsub. }
  split; [unfold load_mapping; now rewrite Hin|].
  split; [exact Hgen|]. now rewrite (main_document _ _ _ _ Hin).
Qed.

Lemma missing_controls_fails_in_renderer_witness :
  load_mapping (world_with document_without_controls)
  = (Ok document_without_controls, world_with document_without_controls)
  /\ generate_html script_globals example_now document_without_controls
       (world_with document_without_controls)
     = (Raise (KeyError "controls"), world_with document_without_controls)
  /\ main script_globals example_now (world_with document_without_controls)
     = (Raise (KeyError "controls"), world_with document_without_controls).
Proof.
  apply (missing_controls_fails_in_renderer script_globals example_now
           (world_with document_without_controls) document_without_controls).
  - reflexivity.
  - intros v. discriminate.
Defined.

(** C5, as stated, fails on a mapping file that parses, but not as the
    expected structure: for a list of controls at the top level the
    loader returns the list and does not fail; the run aborts later, in
    the renderer. *)
Lemma loader_returns_top_level_list :
  (forall v, subscript top_level_list "controls" <> Ok v)
  /\ load_mapping (world_with top_level_list)
     = (Ok top_level_list, world_with top_level_list)
  /\ ~ (exists e, fst (load_mapping (world_with top_level_list)) = Raise e)
  /\ main script_globals example_now (world_with top_level_list)
     = (Raise TypeError, world_with top_level_list).
Proof.
  split; [intros v; discriminate|]. split; [reflexivity|].
  split; [intros [e He]; discriminate|reflexivity].
Qed.

(** C5, amended: when the mapping file is absent, cannot be read or is
    not parseable as YAML, the loader fails with the exception of [open]
    or of [yaml.safe_load], and the run ends there with a failure status
    and nothing written or printed; when the file parses, but not to a
    mapping with controls that can be aggregated, the loader returns the
    document and the run ends in the renderer, again with a failure
    status and nothing written or printed. *)
Theorem unusable_input_aborts g now w :
  ((forall doc, input w <> Document doc) ->
   exists e,
     load_mapping w = (Raise e, w)
     /\ main g now w = (Raise e, w)
     /\ exit_status (fst (main g now w)) = 1
     /\ e = match input w with
            | Absent => FileNotFoundError
            | Forbidden => PermissionError
            | IsDirectory => IsADirectoryError
            | Undecodable => UnicodeDecodeError
            | _ => YAMLError
            end)
  /\ (forall doc e,
        input w = Document doc ->
        coverage_of doc = Raise e ->
        load_mapping w = (Ok doc, w)
        /\ main g now w = (Raise e, w)
        /\ exit_status (fst (main g now w)) = 1).
Proof.
  split.
  - intros H. pose proof (load_mapping_raises w H) as Hload.
    eexists. split; [exact Hload|].
    rewrite (main_loader_raises g now w _ Hload). repeat split.
  - intros doc e Hin Hcov.
    assert (Hmain : main g now w = (Raise e, w)).
    { rewrite (main_document _ _ _ _ Hin).
      now apply generate_html_coverage_raises. }
    split; [unfold load_mapping; now rewrite Hin|].
    split; [exact Hmain|]. now rewrite Hmain.
Qed.

Lemma unusable_input_aborts_witness :
  (exists e,
     load_mapping (empty_directory Absent) = (Raise e, empty_directory Absent)
     /\ main script_globals example_now (empty_directory Absent)
        = (Raise e, empty_directory Absent)
     /\ exit_status
          (fst (main script_globals example_now (empty_directory Absent))) = 1
     /\ e = FileNotFoundError)
  /\ (load_mapping (world_with top_level_list)
      = (Ok top_level_list, world_with top_level_list)
      /\ main sectioned_globals example_now (world_with top_level_list)
         = (Raise TypeError, world_with top_level_list)
      /\ exit_status
           (fst (main sectioned_globals example_now
                   (world_with top_level_list))) = 1).
Proof.
  split.
  - apply (proj1 (unusable_input_aborts script_globals example_now
                    (empty_directory Absent))).
    intros doc. discriminate.
  - apply (proj2 (unusable_input_aborts sectioned_globals example_now
                    (world_with top_level_list))
             top_level_list TypeError); reflexivity.
Defined.

(* ===================================================================== *)
(** ** The renderer *)
(* ===================================================================== *)




(** C4, on the script as it is: the mapping with the four example
    controls produces no HTML document at all, the run ending with
    [NameError] and the earlier report untouched; and whatever
    [generate_control_sections] were bound to, the template interpolates
    the date, the total and the control sections only, so that the text
    does not depend on the three status counts or on the percentage. *)
Theorem report_not_produced_and_lacks_counts :
  main script_globals example_now (world_with (mapping_of (YSeq four_controls)))
  = (Raise (NameError "generate_control_sections"),
     world_with (mapping_of (YSeq four_controls)))
  /\ forall g now mapping n i p q pct i' p' q' pct',
       render g now mapping
         {| total := n; implemented := i; in_progress := p;
            not_implemented := q; percentage := pct |}
       = render g now mapping
           {| total := n; implemented := i'; in_progress := p';
              not_implemented := q'; percentage := pct' |}.
Proof.
  split; reflexivity.
Qed.

(** C7: every run that completes successfully has printed, after what
    the standard output held, the confirmation line with the path of
    the report and the summary line with the percentage, the number of
    implemented controls and the total, and its exit status is 0. *)
Theorem successful_run_prints_summary g now w :
  fst (main g now w) = Ok tt ->
  exists doc controls stats,
    input w = Document doc
    /\ subscript doc "controls" = Ok controls
    /\ calculate_coverage controls = Ok stats
    /\ stdout (snd (main g now w))
       = stdout w
         ++ [(check_mark ++ " Report generated: "
              ++ "reports/compliance-report.html")%string;
             ("  Coverage: " ++ str_number (percentage stats) ++ "% ("
              ++ str_int (implemented stats) ++ "/"
              ++ str_int (total stats) ++ ")")%string]
    /\ exit_status (fst (main g now w)) = 0.
Proof.
  intros Hok.
  destruct (main_ok_inv g now w Hok)
    as (doc & controls & stats & f & sections & H1 & H2 & H3 & _ & _ & _ & Hw).
  exists doc, controls, stats. rewrite Hw, Hok. repeat split; assumption.
Qed.

Lemma successful_run_prints_summary_witness :
  exists doc controls stats,
    input (world_with (mapping_of (YSeq four_controls))) = Document doc
    /\ subscript doc "controls" = Ok controls
    /\ calculate_coverage controls = Ok stats
    /\ stdout (snd (main sectioned_globals example_now
                      (world_with (mapping_of (YSeq four_controls)))))
       = stdout (world_with (mapping_of (YSeq four_controls)))
         ++ [(check_mark ++ " Report generated: "
              ++ "reports/compliance-report.html")%string;
             ("  Coverage: " ++ str_number (percentage stats) ++ "% ("
              ++ str_int (implemented stats) ++ "/"
              ++ str_int (total stats) ++ ")")%string]
    /\ exit_status
         (fst (main sectioned_globals example_now
                 (world_with (mapping_of (YSeq four_controls))))) = 0.
Proof.
  apply (successful_run_prints_summary sectioned_globals example_now
           (world_with (mapping_of (YSeq four_controls)))).
  vm_compute. reflexivity.
Defined.

(** C8: for a given mapping there are two texts, [before] and [after],
    such that every run on that mapping that completes, at whatever
    date and whatever the report directory held when it started, leaves
    as report exactly [before], the date and [after]: two runs on the
    same mapping write the same bytes around their dates. *)
Theorem report_same_up_to_date g doc :
  exists before after,
    forall now w,
      input w = Document doc ->
      fst (main g now w) = Ok tt ->
      reports (snd (main g now w))
      = Directory (Some (before ++ strftime now ++ after)%string).
Proof.
  destruct (subscript doc "controls") as [controls|e] eqn:Esub.
  - destruct (calculate_coverage controls) as [stats|e] eqn:Ecov.
    + destruct (generate_control_sections g) as [f|] eqn:Eg.
      * destruct (f controls) as [sections|e] eqn:Ef.
        -- exists html_before_date,
             (html_before_total ++ str_int (total stats)
              ++ html_before_sections ++ sections
              ++ html_after_sections)%string.
           intros now w Hin Hok.
           destruct (main_ok_inv g now w Hok)
             as (doc' & controls' & stats' & f' & sections'
                 & H1 & H2 & H3 & H4 & H5 & _ & Hw).
           rewrite Hw. cbn [reports].
           assert (doc' = doc) by congruence. subst doc'.
           assert (controls' = controls) by congruence. subst controls'.
           assert (stats' = stats) by congruence. subst stats'.
           assert (f' = f) by congruence. subst f'.
           assert (sections' = sections) by congruence. subst sections'.
           reflexivity.
        -- exists EmptyString, EmptyString. intros now w Hin Hok.
           destruct (main_ok_inv g now w Hok)
             as (doc' & controls' & stats' & f' & sections'
                 & H1 & H2 & H3 & H4 & H5 & _).
           assert (doc' = doc) by congruence. subst doc'.
           assert (controls' = controls) by congruence. subst controls'.
           assert (f' = f) by congruence. subst f'. congruence.
      * exists EmptyString, EmptyString. intros now w Hin Hok.
        destruct (main_ok_inv g now w Hok)
          as (doc' & controls' & stats' & f' & sections'
              & H1 & H2 & H3 & H4 & _). congruence.
    + exists EmptyString, EmptyString. intros now w Hin Hok.
      destruct (main_ok_inv g now w Hok)
        as (doc' & controls' & stats' & f' & sections'
            & H1 & H2 & H3 & _).
      assert (doc' = doc) by congruence. subst doc'.
      assert (controls' = controls) by congruence. subst controls'.
      congruence.
  - exists EmptyString, EmptyString. intros now w Hin Hok.
    destruct (main_ok_inv g now w Hok)
      as (doc' & controls' & stats' & f' & sections' & H1 & H2 & _).
    assert (doc' = doc) by congruence. subst doc'. congruence.
Qed.

Lemma report_same_up_to_date_witness :
  exists before after,
    reports (snd (main sectioned_globals example_now
                    (world_with (mapping_of (YSeq four_controls)))))
    = Directory (Some (before ++ strftime example_now ++ after)%string)
    /\ reports
         (snd (main sectioned_globals example_later
                 (snd (main sectioned_globals example_now
                         (world_with (mapping_of (YSeq four_controls)))))))
       = Directory (Some (before ++ strftime example_later ++ after)%string).
Proof.
  destruct (report_same_up_to_date sectioned_globals
              (mapping_of (YSeq four_controls))) as (before & after & H).
  exists before, after. split.
  - apply H; vm_compute; reflexivity.
  - apply H; vm_compute; reflexivity.
Defined.

(* ===================================================================== *)
(** ** Controls with an unrecognized status *)
(* ===================================================================== *)

Lemma count_app (p : yaml -> bool) (xs ys : list yaml) :
  count p (xs ++ ys) = count p xs + count p ys.
Proof.
  unfold count. rewrite filter_app, length_app. lia.
Qed.

Lemma unrecognized_in_no_bucket (c : yaml) :
  recognized c = false ->
  status_is "implemented" c = false
  /\ status_is "in_progress" c = false
  /\ status_is "not_implemented" c = false.
Proof.
  unfold recognized. intros H.
  apply orb_false_iff in H as [H H3]. apply orb_false_iff in H as [H1 H2].
  auto.
Qed.

Lemma buckets_le_length (cs : list yaml) :
  count (status_is "implemented") cs + count (status_is "in_progress") cs
  + count (status_is "not_implemented") cs <= Z.of_nat (List.length cs).
Proof.
  induction cs as [|c cs IH]; [reflexivity|].
  rewrite !count_cons. change (List.length (c :: cs)) with (S (List.length cs)).
  assert ((if status_is "implemented" c then 1 else 0)
          + (if status_is "in_progress" c then 1 else 0)
          + (if status_is "not_implemented" c then 1 else 0) <= 1); [|lia].
  unfold status_is. destruct (subscript c "status") as [st|e]; [|lia].
  destruct st; simpl; try lia.
  destruct (String.eqb s "implemented") eqn:E1;
    destruct (String.eqb s "in_progress") eqn:E2;
    destruct (String.eqb s "not_implemented") eqn:E3;
    try lia;
    repeat match goal with
           | H : String.eqb _ _ = true |- _ => apply String.eqb_eq in H; subst
           end; discriminate.
Qed.

Lemma forallb_has_status_remove (before after : list yaml) (c : yaml) :
  forallb has_status (before ++ c :: after) = true ->
  forallb has_status (before ++ after) = true.
Proof.
  rewrite !forallb_app. cbn [forallb]. intros H.
  apply andb_true_iff in H as [H1 H2]. apply andb_true_iff in H2 as [_ H2].
  now rewrite H1, H2.
Qed.

Lemma count_insert (p : yaml -> bool) (before after : list yaml) (c : yaml) :
  count p (before ++ c :: after)
  = count p (before ++ after) + (if p c then 1 else 0).
Proof.
  rewrite !count_app, count_cons. lia.
Qed.

(** A longer list with as many implemented controls has no higher
    percentage: the quotient, its product by 100 and the rounding to one
    decimal are all monotone. *)
Lemma script_percentage_antitone (i n n' : Z) :
  0 <= i -> 0 < n' -> n' <= n ->
  Float64.le (script_percentage i n) (script_percentage i n').
Proof.
  intros Hi Hn' Hn. apply Float64Reals.le_F2R. unfold script_percentage.
  apply Float64Reals.round_F2R_mono. apply Float64Reals.mul_F2R_mono.
  - apply Float64Reals.nearest_mono; try lia.
    now apply Float64Reals.ratio_antitone_den.
  - apply Float64Reals.nearest_nonneg. lia.
Qed.

(** The percentage lies between 0.0 and 100.0, far from the largest
    double. *)
Lemma script_percentage_bounds (i n : Z) :
  0 <= i <= n -> 0 < n ->
  Float64.le Float64.zero (script_percentage i n)
  /\ Float64.le (script_percentage i n) (Float64.of_int 100).
Proof.
  intros Hi Hn. split; apply Float64Reals.le_F2R.
  - rewrite Float64Reals.F2R_zero. apply Float64Reals.nearest_nonneg.
    apply Z.pow_pos_nonneg; lia.
  - change (Float64.of_int 100) with (script_percentage 1 1).
    unfold script_percentage.
    apply Float64Reals.round_F2R_mono. apply Float64Reals.mul_F2R_mono.
    + apply Float64Reals.nearest_mono; try lia.
      unfold Float64.ratio. apply IZR_lt in Hn.
      destruct Hi as [_ Hi]. apply IZR_le in Hi.
      apply (Rmult_le_reg_r (IZR n)); [assumption|].
      replace (IZR i / IZR n * IZR n)%R with (IZR i) by (field; lra). lra.
    + apply Float64Reals.nearest_nonneg. lia.
Qed.

(** C10, as stated, fails after a control that is not implemented: with
    or without the control of unknown status the percentage is 0.0, so
    the unrecognized status has not lowered it. *)
Lemma unknown_status_leaves_percentage :
  recognized (control "unknown") = false
  /\ calculate_coverage (YSeq unknown_after_not_implemented)
     = Ok {| total := 2; implemented := 0; in_progress := 0;
             not_implemented := 1; percentage := PyFloat Float64.zero |}
  /\ calculate_coverage (YSeq [control "not_implemented"])
     = Ok {| total := 1; implemented := 0; in_progress := 0;
             not_implemented := 1; percentage := PyFloat Float64.zero |}.
Proof.
  repeat split; vm_compute; reflexivity.
Qed.

(** C10, amended: in a list of controls that all have a status, a
    control whose status is none of the three recognized ones is not
    rejected; it adds one to the total and nothing to the three counts,
    whose sum is therefore below the total; and the percentage, computed
    over that larger total, is never higher than without the control (it
    can be equal). *)
Theorem unrecognized_status_counted_in_total_only
    (before after : list yaml) (c : yaml) :
  forallb has_status (before ++ c :: after) = true ->
  recognized c = false ->
  exists stats stats',
    calculate_coverage (YSeq (before ++ c :: after)) = Ok stats
    /\ calculate_coverage (YSeq (before ++ after)) = Ok stats'
    /\ total stats = total stats' + 1
    /\ implemented stats = implemented stats'
    /\ in_progress stats = in_progress stats'
    /\ not_implemented stats = not_implemented stats'
    /\ implemented stats + in_progress stats + not_implemented stats
       < total stats
    /\ percentage stats
       = coverage_percentage (implemented stats') (total stats' + 1)
    /\ number_le (percentage stats) (percentage stats').
Proof.
  intros Hall Hc.
  pose proof (forallb_has_status_remove _ _ _ Hall) as Hrest.
  destruct (unrecognized_in_no_bucket c Hc) as (H1 & H2 & H3).
  do 2 eexists.
  split; [now apply calculate_coverage_seq|].
  split; [now apply calculate_coverage_seq|].
  cbn [total implemented in_progress not_implemented percentage].
  rewrite !count_insert, H1, H2, H3, !Z.add_0_r.
  assert (Hlen : Z.of_nat (List.length (before ++ c :: after))
                 = Z.of_nat (List.length (before ++ after)) + 1).
  { rewrite !length_app. cbn [List.length]. lia. }
  rewrite Hlen.
  pose proof (buckets_le_length (before ++ after)) as Hle.
  pose proof (count_nonneg "implemented" (before ++ after)) as Hi.
  repeat split; try lia.
  unfold number_le, coverage_percentage.
  set (n := Z.of_nat (List.length (before ++ after))) in *.
  set (i := count (status_is "implemented") (before ++ after)) in *.
  destruct (Z.ltb_spec 0 (n + 1)) as [_|]; [|lia].
  destruct (Z.ltb_spec 0 n) as [Hn|Hn]; cbn [number_float].
  - apply script_percentage_antitone; lia.
  - pose proof (count_nonneg "in_progress" (before ++ after)).
    pose proof (count_nonneg "not_implemented" (before ++ after)).
    assert (n = 0) by lia. assert (i = 0) by lia.
    replace n with 0 by lia. replace i with 0 by lia. reflexivity.
Qed.

Lemma unrecognized_status_counted_in_total_only_witness :
  exists stats stats',
    calculate_coverage (YSeq unknown_after_not_implemented) = Ok stats
    /\ calculate_coverage (YSeq [control "not_implemented"]) = Ok stats'
    /\ total stats = total stats' + 1
    /\ implemented stats = implemented stats'
    /\ in_progress stats = in_progress stats'
    /\ not_implemented stats = not_implemented stats'
    /\ implemented stats + in_progress stats + not_implemented stats
       < total stats
    /\ percentage stats
       = coverage_percentage (implemented stats') (total stats' + 1)
    /\ number_le (percentage stats) (percentage stats').
Proof.
  exact (unrecognized_status_counted_in_total_only
           [control "not_implemented"] [] (control "unknown")
           eq_refl eq_refl).
Defined.

(* ===================================================================== *)
(** ** How far rounding moves a number *)
(* ===================================================================== *)

Module Float64Error.
Import Float64 Float64Facts Float64Reals.
Local Open Scope R_scope.

Lemma within_half (m x y z : R) :
  0 < y -> 2 * x - y <= 2 * m * y -> 2 * m * y <= 2 * x + y -> x = z * y ->
  z - / 2 <= m <= z + / 2.
Proof.
  intros Hy Hlo Hhi ->.
  split; apply (Rmult_le_reg_r y); try assumption; nra.
Qed.

Lemma scaled_within (m x p p' h : R) :
  0 < p -> p' * p = 1 -> x * p' - h <= m <= x * p' + h ->
  x - h * p <= m * p <= x + h * p.
Proof.
  intros Hp Hpp [Hlo Hhi].
  apply (Rmult_le_compat_r p) in Hlo, Hhi; try lra.
  replace ((x * p' - h) * p) with (x * (p' * p) - h * p) in Hlo by ring.
  replace ((x * p' + h) * p) with (x * (p' * p) + h * p) in Hhi by ring.
  rewrite Hpp in Hlo, Hhi. lra.
Qed.

Lemma rne_div_error (a b : Z) :
  (0 < b)%Z ->
  ratio a b - / 2 <= IZR (rne_div a b) <= ratio a b + / 2.
Proof.
  intros Hb.
  assert (Hz : (2 * a - b <= 2 * rne_div a b * b <= 2 * a + b)%Z).
  { unfold rne_div.
    pose proof (Z.div_mod a b ltac:(lia)) as Hdiv.
    pose proof (Z.mod_pos_bound a b Hb) as Hmod.
    set (q := (a / b)%Z) in *. set (r := (a mod b)%Z) in *. clearbody q r.
    destruct (Z.compare_spec (2 * r) b); [destruct (Z.even q)|..]; nia. }
  destruct Hz as [Hlo Hhi]. apply IZR_le in Hlo, Hhi.
  rewrite minus_IZR, !mult_IZR in Hlo. rewrite plus_IZR, !mult_IZR in Hhi.
  apply IZR_lt in Hb.
  apply (within_half (IZR (rne_div a b)) (IZR a) (IZR b) (ratio a b) Hb Hlo Hhi).
  unfold ratio. field. lra.
Qed.

(** The double nearest to [a / b] is within half a unit of its last
    place. *)
Lemma nearest_error (a b : Z) :
  (0 < a)%Z -> (0 < b)%Z ->
  ratio a b - powerRZ 2 (exponent_of a b) / 2
  <= F2R (nearest a b)
  <= ratio a b + powerRZ 2 (exponent_of a b) / 2.
Proof.
  intros Ha Hb. rewrite nearest_F2R by assumption.
  set (e := exponent_of a b).
  pose proof (rne_div_error (scale_num a e) (scale_den b e)
                (scale_den_pos b e Hb)) as Herr.
  rewrite scale_ratio in Herr by assumption.
  pose proof (scaled_within _ _ _ _ _ (pow2_pos e) (pow2_opp e) Herr). lra.
Qed.

(** Above the subnormal numbers the error is at most [2^-53] of the
    number rounded. *)
Lemma nearest_relative_error (a b : Z) :
  (0 < a)%Z -> (0 < b)%Z -> powerRZ 2 (-1022) <= ratio a b ->
  ratio a b * (1 - powerRZ 2 (-53))
  <= F2R (nearest a b)
  <= ratio a b * (1 + powerRZ 2 (-53)).
Proof.
  intros Ha Hb Hnormal.
  pose proof (nearest_error a b Ha Hb) as [Hlo Hhi].
  pose proof (ilog2_ratio_spec a b Ha Hb) as [Hk Hk'].
  assert (Hkn : (-1022 <= ilog2_ratio a b)%Z).
  { assert (-1022 < ilog2_ratio a b + 1)%Z; [|lia]. apply pow2_lt_inv. lra. }
  assert (He : exponent_of a b = (ilog2_ratio a b + -52)%Z)
    by (unfold exponent_of, prec, emin; lia).
  rewrite He, pow2_add in Hlo, Hhi.
  assert (H53 : powerRZ 2 (-53) * 2 = powerRZ 2 (-52)).
  { replace (-52)%Z with (-53 + 1)%Z by lia. rewrite pow2_add.
    rewrite powerRZ_1. reflexivity. }
  pose proof (pow2_pos (-53)). pose proof (pow2_pos (-52)).
  set (k := powerRZ 2 (ilog2_ratio a b)) in *.
  set (u := powerRZ 2 (-53)) in *. set (v := powerRZ 2 (-52)) in *.
  set (x := ratio a b) in *. clearbody k u v x. split; nra.
Qed.

End Float64Error.

Module PercentageAccuracy.
Import Float64 Float64Facts Float64Reals Float64Error.
Local Open Scope R_scope.

Lemma F2R_of_int_100 : F2R (of_int 100) = 100.
Proof.
  change (of_int 100) with (mk (100 * 2 ^ 46) (-46)).
  unfold F2R. cbn [mant expo].
  rewrite mult_IZR, pow2_IZR by lia.
  rewrite Rmult_assoc. change 46%Z with (- -46)%Z.
  rewrite pow2_opp. ring.
Qed.

Lemma mul_ratio (x y : t) :
  ratio (scale_num (mant x * mant y) (- (expo x + expo y)))
        (scale_den 1 (- (expo x + expo y)))
  = F2R x * F2R y.
Proof.
  rewrite product_ratio, mult_IZR, pow2_add. unfold F2R. ring.
Qed.

Lemma decimal_ratio (x : t) :
  ratio (scale_num (10 ^ Z.of_nat 1 * mant x) (- expo x))
        (scale_den 1 (- expo x))
  = 10 * F2R x.
Proof.
  rewrite product_ratio, mult_IZR. unfold F2R.
  change (10 ^ Z.of_nat 1)%Z with 10%Z. ring.
Qed.

(** The product of a double [x >= 2^-41] by 100.0 is within [2^-53] of
    its exact value, relatively. *)
Lemma mul_100_relative_error (x : t) :
  powerRZ 2 (-41) <= F2R x ->
  F2R x * 100 * (1 - powerRZ 2 (-53))
  <= F2R (mul x (of_int 100))
  <= F2R x * 100 * (1 + powerRZ 2 (-53)).
Proof.
  intros Hx. unfold mul.
  set (e := (expo x + expo (of_int 100))%Z).
  set (a := scale_num (mant x * mant (of_int 100)) (- e)).
  set (b := scale_den 1 (- e)).
  assert (Hb : (0 < b)%Z) by (apply scale_den_pos; lia).
  assert (Hr : ratio a b = F2R x * 100).
  { unfold a, b, e. rewrite mul_ratio. now rewrite F2R_of_int_100. }
  pose proof (pow2_pos (-41)) as H41.
  assert (Hn : powerRZ 2 (-1022) <= powerRZ 2 (-41)) by (apply pow2_le; lia).
  assert (Ha : (0 < a)%Z) by (apply (ratio_pos_inv a b Hb); lra).
  rewrite <- Hr. apply nearest_relative_error; try assumption. lra.
Qed.

Lemma pow2_m13 : powerRZ 2 (-53) * powerRZ 2 40 = / 8192.
Proof.
  rewrite <- pow2_add. change (-53 + 40)%Z with (-13)%Z.
  unfold powerRZ. simpl. field.
Qed.

Lemma ratio_ge_inv_pow (i n : Z) :
  (0 < i)%Z -> (0 < n)%Z -> (n < 2 ^ 40)%Z -> powerRZ 2 (-40) <= ratio i n.
Proof.
  intros Hi Hn Hlt.
  assert (H1 : 1 <= IZR i) by (apply IZR_le; lia).
  assert (H2 : IZR n <= powerRZ 2 40).
  { rewrite <- pow2_IZR by lia. apply IZR_le. lia. }
  assert (H3 : 0 < IZR n) by (apply IZR_lt; lia).
  pose proof (pow2_opp 40) as Hopp. pose proof (pow2_pos (-40)).
  unfold ratio. apply (Rmult_le_reg_r (IZR n)); [assumption|].
  replace (IZR i / IZR n * IZR n) with (IZR i) by (field; lra).
  change (- (40))%Z with (-40)%Z in Hopp. nra.
Qed.

Lemma combine_bounds (T P Q r u : R) :
  0 < u <= / 2 -> 0 < r ->
  r * (1 - u) <= Q <= r * (1 + u) ->
  Q * 100 * (1 - u) <= P <= Q * 100 * (1 + u) ->
  10 * P - / 2 <= T <= 10 * P + / 2 ->
  1000 * r * ((1 - u) * (1 - u)) - / 2 <= T
  <= 1000 * r * ((1 + u) * (1 + u)) + / 2.
Proof.
  intros [Hu1 Hu2] Hr [Hq1 Hq2] [Hp1 Hp2] [Ht1 Ht2].
  assert (H1 : r * (1 - u) * (1 - u) <= Q * (1 - u)).
  { apply Rmult_le_compat_r; lra. }
  assert (H2 : Q * (1 + u) <= r * (1 + u) * (1 + u)).
  { apply Rmult_le_compat_r; lra. }
  split.
  - apply Rle_trans with (10 * P - / 2); [|assumption].
    apply Rle_trans with (10 * (Q * 100 * (1 - u)) - / 2); [|lra].
    replace (1000 * r * ((1 - u) * (1 - u))) with (1000 * (r * (1 - u) * (1 - u))) by ring.
    replace (10 * (Q * 100 * (1 - u))) with (1000 * (Q * (1 - u))) by ring.
    lra.
  - apply Rle_trans with (10 * P + / 2); [assumption|].
    apply Rle_trans with (10 * (Q * 100 * (1 + u)) + / 2); [lra|].
    replace (1000 * r * ((1 + u) * (1 + u))) with (1000 * (r * (1 + u) * (1 + u))) by ring.
    replace (10 * (Q * 100 * (1 + u))) with (1000 * (Q * (1 + u))) by ring.
    lra.
Qed.

Lemma integer_gap (T r u w x y : R) :
  0 < u <= / 2 -> u * w = / 8192 ->
  0 < x -> x <= y -> y <= w -> r * y = x ->
  1000 * r * ((1 - u) * (1 - u)) - / 2 <= T
  <= 1000 * r * ((1 + u) * (1 + u)) + / 2 ->
  - (y + 1) < 2 * T * y - 2000 * x < y + 1.
Proof.
  intros [Hu1 Hu2] Huw Hx Hxy Hyw Hr [Hlo Hhi].
  assert (Hy : 0 < y) by lra.
  assert (Hxu : x * u <= / 8192).
  { rewrite <- Huw, (Rmult_comm u w). apply Rmult_le_compat_r; lra. }
  assert (Hxu0 : 0 <= x * u) by (apply Rmult_le_pos; lra).
  assert (Hxuu : x * u * u <= / 16384).
  { apply Rle_trans with (/ 8192 * / 2); [|lra].
    apply Rmult_le_compat; lra. }
  assert (Hxuu0 : 0 <= x * u * u) by (apply Rmult_le_pos; lra).
  apply (Rmult_le_compat_r (2 * y)) in Hlo, Hhi; try lra.
  replace ((1000 * r * ((1 - u) * (1 - u)) - / 2) * (2 * y))
    with (2000 * (r * y) - 4000 * ((r * y) * u)
          + 2000 * ((r * y) * u * u) - y) in Hlo by field.
  replace ((1000 * r * ((1 + u) * (1 + u)) + / 2) * (2 * y))
    with (2000 * (r * y) + 4000 * ((r * y) * u)
          + 2000 * ((r * y) * u * u) + y) in Hhi by field.
  rewrite Hr in Hlo, Hhi. lra.
Qed.

(** The tenths of the percentage of [i] controls out of [n]: the real
    bounds. *)
Lemma tenths_real_bounds (i n : Z) :
  (0 < i)%Z -> (i <= n)%Z -> (n < 2 ^ 40)%Z ->
  let p := mul (int_truediv i n) (of_int 100) in
  let u := powerRZ 2 (-53) in
  1000 * ratio i n * ((1 - u) * (1 - u)) - / 2
  <= IZR (decimal_digits 1 p)
  <= 1000 * ratio i n * ((1 + u) * (1 + u)) + / 2.
Proof.
  intros Hi Hin Hn p u.
  assert (Hn0 : (0 < n)%Z) by lia.
  pose proof (ratio_ge_inv_pow i n Hi Hn0 Hn) as Hr.
  pose proof (ratio_pos i n Hi Hn0) as Hr0.
  assert (Hu : 0 < u <= / 2).
  { split; [apply pow2_pos|]. unfold u.
    replace (/ 2) with (powerRZ 2 (-1)) by (unfold powerRZ; simpl; field).
    apply pow2_le. lia. }
  assert (Hq : ratio i n * (1 - u) <= F2R (int_truediv i n)
               <= ratio i n * (1 + u)).
  { apply nearest_relative_error; try assumption.
    assert (powerRZ 2 (-1022) <= powerRZ 2 (-40)) by (apply pow2_le; lia).
    lra. }
  assert (Hq41 : powerRZ 2 (-41) <= F2R (int_truediv i n)).
  { assert (H41 : powerRZ 2 (-41) * 2 = powerRZ 2 (-40)).
    { replace (-40)%Z with (-41 + 1)%Z by lia. rewrite pow2_add.
      now rewrite powerRZ_1. }
    pose proof (pow2_pos (-41)). nra. }
  pose proof (mul_100_relative_error (int_truediv i n) Hq41) as Hp.
  fold p in Hp.
  pose proof (rne_div_error
                (scale_num (10 ^ Z.of_nat 1 * mant p) (- expo p))
                (scale_den 1 (- expo p))
                ltac:(apply scale_den_pos; lia)) as Ht.
  rewrite decimal_ratio in Ht. fold (decimal_digits 1 p) in Ht.
  apply (combine_bounds _ (F2R p) (F2R (int_truediv i n))); assumption.
Qed.

(** Below [2^40] controls the percentage is [100 * i / n] rounded to one
    decimal: its tenths [t] are an integer nearest to [1000 * i / n]. *)
Lemma tenths_nearest (i n : Z) :
  (0 <= i)%Z -> (i <= n)%Z -> (0 < n)%Z -> (n < 2 ^ 40)%Z ->
  (Z.abs (2 * decimal_digits 1 (mul (int_truediv i n) (of_int 100)) * n
          - 2000 * i) <= n)%Z.
Proof.
  intros Hi0 Hin Hn0 Hn.
  destruct (Z.eq_dec i 0) as [->|Hne].
  - unfold int_truediv. rewrite nearest_nonpos by lia.
    change (decimal_digits 1 (mul zero (of_int 100))) with 0%Z. lia.
  - assert (Hi : (0 < i)%Z) by lia.
    pose proof (tenths_real_bounds i n Hi Hin Hn) as Hb. cbv zeta in Hb.
    set (t := decimal_digits 1 (mul (int_truediv i n) (of_int 100))) in *.
    assert (Hu : 0 < powerRZ 2 (-53) <= / 2).
    { split; [apply pow2_pos|].
      replace (/ 2) with (powerRZ 2 (-1)) by (unfold powerRZ; simpl; field).
      apply pow2_le. lia. }
    assert (Hy : IZR n <= powerRZ 2 40).
    { rewrite <- pow2_IZR by lia. apply IZR_le. lia. }
    assert (Hr : ratio i n * IZR n = IZR i).
    { unfold ratio. field. apply not_0_IZR. lia. }
    pose proof (integer_gap (IZR t) (ratio i n) _ _ (IZR i) (IZR n)
                  Hu pow2_m13 (IZR_lt _ _ Hi) (IZR_le _ _ Hin) Hy Hr Hb)
      as [Hlo Hhi].
    assert (Hlo' : (- (n + 1) < 2 * t * n - 2000 * i)%Z).
    { apply lt_IZR. rewrite opp_IZR, plus_IZR, minus_IZR, !mult_IZR. exact Hlo. }
    assert (Hhi' : (2 * t * n - 2000 * i < n + 1)%Z).
    { apply lt_IZR. rewrite plus_IZR, minus_IZR, !mult_IZR. exact Hhi. }
    lia.
Qed.

End PercentageAccuracy.

(* ===================================================================== *)
(** ** What the aggregator accepts and what it looks at *)
(* ===================================================================== *)

Lemma sum_matching_raises (status : string) (good rest : list yaml)
    (bad : yaml) (e : exn) :
  forallb has_status good = true ->
  subscript bad "status" = Raise e ->
  forall acc, sum_matching status (good ++ bad :: rest) acc = Raise e.
Proof.
  intros Hgood Hbad. induction good as [|c good IH]; intros acc; simpl.
  - now rewrite Hbad.
  - simpl in Hgood. apply andb_true_iff in Hgood as [Hc Hgood].
    unfold has_status in Hc.
    destruct (subscript c "status") as [st|]; [|discriminate].
    simpl. now apply IH.
Qed.

Lemma sum_matching_ok_inv (status : string) (cs : list yaml) :
  forall acc r, sum_matching status cs acc = Ok r ->
  forallb has_status cs = true.
Proof.
  induction cs as [|c cs IH]; intros acc r H; [reflexivity|].
  simpl in *. unfold has_status at 1.
  destruct (subscript c "status") as [st|]; [|discriminate].
  simpl in *. eapply IH. eassumption.
Qed.

Lemma len_of_iterate (v : yaml) (cs : list yaml) :
  iterate v = Ok cs -> len v = Ok (Z.of_nat (List.length cs)).
Proof.
  destruct v; simpl; intros H; inversion H; subst; try reflexivity.
  - now rewrite length_map.
  - now rewrite length_map.
Qed.

(** The aggregator sees the elements of its argument and nothing else. *)
Lemma calculate_coverage_elements (v : yaml) (cs : list yaml) :
  iterate v = Ok cs -> calculate_coverage v = calculate_coverage (YSeq cs).
Proof.
  intros H. unfold calculate_coverage, count_status.
  rewrite (len_of_iterate v cs H), H. reflexivity.
Qed.

Lemma calculate_coverage_ok_inv (v : yaml) (stats : CoverageStats) :
  calculate_coverage v = Ok stats ->
  exists cs, iterate v = Ok cs /\ forallb has_status cs = true.
Proof.
  intros H. destruct (iterate v) as [cs|e] eqn:E.
  - exists cs. split; [reflexivity|].
    rewrite (calculate_coverage_elements v cs E) in H.
    unfold calculate_coverage, count_status in H. simpl in H.
    destruct (sum_matching "implemented" cs 0) as [r|] eqn:S; [|discriminate].
    eapply sum_matching_ok_inv. eassumption.
  - exfalso. destruct v; simpl in E; try discriminate;
      unfold calculate_coverage in H; simpl in H; discriminate.
Qed.

Lemma calculate_coverage_raises
    (good rest : list yaml) (bad : yaml) (e : exn) :
  forallb has_status good = true ->
  subscript bad "status" = Raise e ->
  calculate_coverage (YSeq (good ++ bad :: rest)) = Raise e.
Proof.
  intros Hgood Hbad. unfold calculate_coverage, count_status. simpl.
  now rewrite (sum_matching_raises "implemented" good rest bad e Hgood Hbad).
Qed.

(** X1: the first control of the list that cannot give a status ends
    the aggregation with its exception, [KeyError] for a record without
    the field and [TypeError] for anything that is not a record. *)
Theorem first_control_without_status_decides
    (good rest : list yaml) (bad : yaml) (e : exn) :
  forallb has_status good = true ->
  subscript bad "status" = Raise e ->
  calculate_coverage (YSeq (good ++ bad :: rest)) = Raise e
  /\ e = match bad with
         | YMap _ => KeyError "status"
         | _ => TypeError
         end.
Proof.
  intros Hgood Hbad. split.
  - now apply calculate_coverage_raises.
  - destruct bad; simpl in Hbad; try congruence.
    destruct (lookup "status" entries); congruence.
Qed.

Lemma first_control_without_status_decides_witness :
  calculate_coverage
    (YSeq ([control "implemented"]
           ++ YMap [(YStr "id", YStr "AC-2")] :: [YNull]))
  = Raise (KeyError "status")
  /\ KeyError "status" = KeyError "status".
Proof.
  exact (first_control_without_status_decides
           [control "implemented"] [YNull]
           (YMap [(YStr "id", YStr "AC-2")]) (KeyError "status")
           eq_refl eq_refl).
Defined.

(** X2: on a list the aggregator returns statistics exactly when every
    element is a record with a status field. *)
Theorem coverage_returns_iff_all_have_status (cs : list yaml) :
  (exists stats, calculate_coverage (YSeq cs) = Ok stats)
  <-> forallb has_status cs = true.
Proof.
  split.
  - intros [stats H]. destruct (calculate_coverage_ok_inv _ _ H) as (cs' & E & Hall).
    simpl in E. now inversion E; subst.
  - intros H. eexists. now apply calculate_coverage_seq.
Qed.

(** X3: controls written as a mapping from names to records are not
    aggregated: the loop visits the keys, and the first key, not being a
    record, ends it with [TypeError]. *)
Theorem controls_keyed_by_name_rejected
    (key value : yaml) (others : list (yaml * yaml)) :
  (forall entries, key <> YMap entries) ->
  calculate_coverage (YMap ((key, value) :: others)) = Raise TypeError.
Proof.
  intros Hkey.
  rewrite (calculate_coverage_elements (YMap ((key, value) :: others))
             (key :: map fst others) eq_refl).
  apply (calculate_coverage_raises [] (map fst others) key TypeError eq_refl).
  destruct key; try reflexivity. now destruct (Hkey entries).
Qed.

Lemma controls_keyed_by_name_rejected_witness :
  calculate_coverage
    (YMap [(YStr "AC-1", control "implemented");
           (YStr "AC-2", control "in_progress")])
  = Raise TypeError.
Proof.
  apply (controls_keyed_by_name_rejected (YStr "AC-1")).
  intros entries. discriminate.
Defined.

Lemma sum_matching_same_statuses (status : string) (cs cs' : list yaml) :
  Forall2 (fun c c' => subscript c "status" = subscript c' "status") cs cs' ->
  forall acc, sum_matching status cs acc = sum_matching status cs' acc.
Proof.
  induction 1 as [|c c' cs cs' Hc _ IH]; intros acc; [reflexivity|].
  simpl. rewrite Hc. destruct (subscript c' "status"); simpl; [apply IH|reflexivity].
Qed.

(** X4: the statistics, or the exception, depend on the status fields
    only: two lists whose controls agree on ['status'], one by one, are
    aggregated alike whatever else the records hold. *)
Theorem coverage_reads_status_only (cs cs' : list yaml) :
  Forall2 (fun c c' => subscript c "status" = subscript c' "status") cs cs' ->
  calculate_coverage (YSeq cs) = calculate_coverage (YSeq cs').
Proof.
  intros H. unfold calculate_coverage, count_status. simpl.
  rewrite (Forall2_length H).
  now rewrite !(sum_matching_same_statuses _ cs cs' H).
Qed.

Lemma coverage_reads_status_only_witness :
  calculate_coverage
    (YSeq [YMap [(YStr "id", YStr "AC-1"); (YStr "status", YStr "implemented")]])
  = calculate_coverage (YSeq [control "implemented"]).
Proof.
  apply coverage_reads_status_only.
  constructor; [reflexivity|constructor].
Defined.

Lemma count_permutation (p : yaml -> bool) (cs cs' : list yaml) :
  Permutation cs cs' -> count p cs = count p cs'.
Proof.
  intros H. unfold count. f_equal. apply Permutation_length.
  induction H; simpl.
  - constructor.
  - destruct (p x); [now constructor|assumption].
  - destruct (p x), (p y); try reflexivity; try (now constructor);
      apply perm_swap.
  - etransitivity; eassumption.
Qed.

(** X5: the statistics do not depend on the order of the controls. *)
Theorem coverage_order_independent (cs cs' : list yaml) :
  Permutation cs cs' ->
  forallb has_status cs = true ->
  calculate_coverage (YSeq cs') = calculate_coverage (YSeq cs).
Proof.
  intros Hperm Hcs.
  assert (Hcs' : forallb has_status cs' = true).
  { rewrite forallb_forall in *. intros c Hc. apply Hcs.
    eapply Permutation_in; [symmetry|]; eassumption. }
  rewrite !calculate_coverage_seq by assumption.
  rewrite <- !(count_permutation _ cs cs' Hperm).
  now rewrite (Permutation_length Hperm).
Qed.

Lemma coverage_order_independent_witness :
  calculate_coverage (YSeq [control "in_progress"; control "implemented"])
  = calculate_coverage (YSeq [control "implemented"; control "in_progress"]).
Proof.
  apply coverage_order_independent; [apply perm_swap|reflexivity].
Defined.

(** X6: aggregating two lists put end to end adds up their totals and
    their three counts. *)
Theorem coverage_counts_add (xs ys : list yaml) (sx sy : CoverageStats) :
  calculate_coverage (YSeq xs) = Ok sx ->
  calculate_coverage (YSeq ys) = Ok sy ->
  exists s,
    calculate_coverage (YSeq (xs ++ ys)) = Ok s
    /\ total s = total sx + total sy
    /\ implemented s = implemented sx + implemented sy
    /\ in_progress s = in_progress sx + in_progress sy
    /\ not_implemented s = not_implemented sx + not_implemented sy.
Proof.
  intros Hx Hy.
  destruct (calculate_coverage_ok_inv _ _ Hx) as (xs' & Ex & Hxs).
  destruct (calculate_coverage_ok_inv _ _ Hy) as (ys' & Ey & Hys).
  simpl in Ex, Ey. inversion Ex; inversion Ey; subst xs' ys'.
  rewrite calculate_coverage_seq in Hx, Hy by assumption.
  inversion Hx; inversion Hy; subst sx sy. clear Hx Hy Ex Ey.
  eexists. split.
  - apply calculate_coverage_seq. rewrite forallb_app. now rewrite Hxs, Hys.
  - cbn [total implemented in_progress not_implemented].
    rewrite !count_app, length_app. repeat split; lia.
Qed.

Lemma coverage_counts_add_witness :
  exists s,
    calculate_coverage (YSeq (four_controls ++ [control "implemented"])) = Ok s
    /\ total s = 4 + 1
    /\ implemented s = 2 + 1
    /\ in_progress s = 1 + 0
    /\ not_implemented s = 1 + 0.
Proof.
  exact (coverage_counts_add four_controls [control "implemented"] _ _
           eq_refl eq_refl).
Defined.

Lemma coverage_of_elements (v : yaml) (stats : CoverageStats) :
  calculate_coverage v = Ok stats ->
  exists cs,
    forallb has_status cs = true
    /\ stats = {| total := Z.of_nat (List.length cs);
                  implemented := count (status_is "implemented") cs;
                  in_progress := count (status_is "in_progress") cs;
                  not_implemented := count (status_is "not_implemented") cs;
                  percentage :=
                    coverage_percentage (count (status_is "implemented") cs)
                                        (Z.of_nat (List.length cs)) |}.
Proof.
  intros H. destruct (calculate_coverage_ok_inv _ _ H) as (cs & E & Hcs).
  exists cs. split; [assumption|].
  rewrite (calculate_coverage_elements v cs E) in H.
  rewrite calculate_coverage_seq in H by assumption. now inversion H.
Qed.

Lemma implemented_le_length (cs : list yaml) :
  count (status_is "implemented") cs <= Z.of_nat (List.length cs).
Proof.
  pose proof (buckets_le_length cs).
  pose proof (count_nonneg "in_progress" cs).
  pose proof (count_nonneg "not_implemented" cs). lia.
Qed.

(** X7: whatever the aggregator returns, its counts are not negative and
    the three status counts together never exceed the total. *)
Theorem coverage_counts_bounded (v : yaml) (stats : CoverageStats) :
  calculate_coverage v = Ok stats ->
  0 <= implemented stats /\ 0 <= in_progress stats
  /\ 0 <= not_implemented stats
  /\ implemented stats + in_progress stats + not_implemented stats
     <= total stats.
Proof.
  intros H. destruct (coverage_of_elements _ _ H) as (cs & _ & ->).
  cbn [total implemented in_progress not_implemented].
  pose proof (count_nonneg "implemented" cs).
  pose proof (count_nonneg "in_progress" cs).
  pose proof (count_nonneg "not_implemented" cs).
  pose proof (buckets_le_length cs). lia.
Qed.

Lemma coverage_counts_bounded_witness :
  calculate_coverage (YSeq unknown_after_not_implemented)
  = Ok {| total := 2; implemented := 0; in_progress := 0;
          not_implemented := 1; percentage := PyFloat Float64.zero |}
  /\ 0 <= 0 /\ 0 <= 0 /\ 0 <= 1 /\ 0 + 0 + 1 <= 2.
Proof.
  split; [vm_compute; reflexivity|].
  exact (coverage_counts_bounded (YSeq unknown_after_not_implemented) _ eq_refl).
Defined.

(** X8: the percentage returned is the integer 0 exactly when there is
    no control, and otherwise a float between 0.0 and 100.0. *)
Theorem percentage_within_bounds (v : yaml) (stats : CoverageStats) :
  calculate_coverage v = Ok stats ->
  (total stats = 0 /\ percentage stats = PyInt 0)
  \/ (0 < total stats
      /\ exists p, percentage stats = PyFloat p
                   /\ Float64.le Float64.zero p
                   /\ Float64.le p (Float64.of_int 100)).
Proof.
  intros H. destruct (coverage_of_elements _ _ H) as (cs & _ & ->).
  cbn [total percentage]. unfold coverage_percentage.
  destruct (Z.ltb_spec 0 (Z.of_nat (List.length cs))) as [Hn|Hn].
  - right. split; [assumption|]. eexists. split; [reflexivity|].
    apply script_percentage_bounds; [|assumption].
    split; [apply count_nonneg|apply implemented_le_length].
  - left. split; [lia|reflexivity].
Qed.

Lemma percentage_within_bounds_witness :
  exists stats,
    calculate_coverage (YSeq four_controls) = Ok stats
    /\ ((total stats = 0 /\ percentage stats = PyInt 0)
        \/ (0 < total stats
            /\ exists p, percentage stats = PyFloat p
                         /\ Float64.le Float64.zero p
                         /\ Float64.le p (Float64.of_int 100))).
Proof.
  eexists. split; [vm_compute; reflexivity|].
  apply (percentage_within_bounds (YSeq four_controls)).
  vm_compute. reflexivity.
Defined.

(* ===================================================================== *)
(** ** The percentage as a number with one decimal *)
(* ===================================================================== *)

Lemma rne_div_multiple (z b : Z) : 0 < b -> Float64.rne_div (z * b) b = z.
Proof.
  intros Hb. unfold Float64.rne_div.
  rewrite Z.mod_mul, Z.div_mul by lia.
  destruct (Z.compare_spec (2 * 0) b); [lia|reflexivity|lia].
Qed.

(** [n / n] is the double 1.0. *)
Lemma int_truediv_same (n : Z) :
  0 < n -> Float64.int_truediv n n = Float64.of_int 1.
Proof.
  intros Hn. unfold Float64.int_truediv, Float64.of_int, Float64.nearest.
  destruct (Z.leb_spec n 0) as [|_]; [lia|].
  assert (Hk : Float64.ilog2_ratio n n = 0).
  { unfold Float64.ilog2_ratio. rewrite Z.sub_diag.
    now rewrite Z.ltb_irrefl. }
  rewrite Hk.
  change (Z.max (0 - (Float64.prec - 1)) Float64.emin) with (-52).
  unfold Float64.scale_num, Float64.scale_den.
  change (2 ^ Z.max 0 (- -52)) with (2 ^ 52).
  change (2 ^ Z.max 0 (-52)) with 1.
  rewrite Z.mul_1_r, (Z.mul_comm n), rne_div_multiple by assumption.
  reflexivity.
Qed.

Lemma script_percentage_all (n : Z) :
  0 < n -> script_percentage n n = Float64.of_int 100.
Proof.
  intros Hn. unfold script_percentage. rewrite int_truediv_same by assumption.
  vm_compute. reflexivity.
Qed.

Lemma script_percentage_none (n : Z) : script_percentage 0 n = Float64.zero.
Proof. reflexivity. Qed.

Lemma count_all (p : yaml -> bool) (cs : list yaml) :
  forallb p cs = true -> count p cs = Z.of_nat (List.length cs).
Proof.
  induction cs as [|c cs IH]; [reflexivity|]. simpl. intros H.
  apply andb_true_iff in H as [Hc Hcs]. rewrite count_cons, Hc, (IH Hcs).
  lia.
Qed.

Lemma count_none (p : yaml -> bool) (cs : list yaml) :
  existsb p cs = false -> count p cs = 0.
Proof.
  induction cs as [|c cs IH]; [reflexivity|]. simpl. intros H.
  apply orb_false_iff in H as [Hc Hcs]. rewrite count_cons, Hc, (IH Hcs).
  reflexivity.
Qed.

(** X9: on a list that is not empty, the percentage is exactly 100.0
    when every control is implemented and exactly 0.0 when none is. *)
Theorem percentage_extremes (cs : list yaml) :
  cs <> [] ->
  forallb has_status cs = true ->
  exists stats,
    calculate_coverage (YSeq cs) = Ok stats
    /\ (forallb (status_is "implemented") cs = true ->
        percentage stats = PyFloat (Float64.of_int 100))
    /\ (existsb (status_is "implemented") cs = false ->
        percentage stats = PyFloat Float64.zero).
Proof.
  intros Hne Hcs. eexists. split; [now apply calculate_coverage_seq|].
  cbn [percentage]. unfold coverage_percentage.
  assert (Hn : 0 < Z.of_nat (List.length cs)) by (destruct cs; [easy|simpl; lia]).
  destruct (Z.ltb_spec 0 (Z.of_nat (List.length cs))) as [_|]; [|lia].
  split; intros H.
  - rewrite (count_all _ _ H). f_equal. now apply script_percentage_all.
  - rewrite (count_none _ _ H). reflexivity.
Qed.

Lemma percentage_extremes_witness :
  exists stats,
    calculate_coverage (YSeq [control "implemented"; control "implemented"])
    = Ok stats
    /\ (forallb (status_is "implemented")
          [control "implemented"; control "implemented"] = true ->
        percentage stats = PyFloat (Float64.of_int 100))
    /\ (existsb (status_is "implemented")
          [control "implemented"; control "implemented"] = false ->
        percentage stats = PyFloat Float64.zero).
Proof.
  refine (percentage_extremes
            [control "implemented"; control "implemented"] _ eq_refl).
  discriminate.
Defined.

Lemma script_percentage_monotone (i i' n : Z) :
  0 < n -> i <= i' ->
  Float64.le (script_percentage i n) (script_percentage i' n).
Proof.
  intros Hn Hi. apply Float64Reals.le_F2R. unfold script_percentage.
  apply Float64Reals.round_F2R_mono. apply Float64Reals.mul_F2R_mono.
  - apply Float64Reals.nearest_mono; try lia.
    now apply Float64Reals.ratio_mono_num.
  - apply Float64Reals.nearest_nonneg. lia.
Qed.

(** X10: marking one more control as implemented never lowers the
    percentage. *)
Theorem percentage_monotone_in_implemented
    (before after : list yaml) (c c' : yaml) :
  forallb has_status (before ++ c :: after) = true ->
  status_is "implemented" c' = true ->
  exists stats stats',
    calculate_coverage (YSeq (before ++ c :: after)) = Ok stats
    /\ calculate_coverage (YSeq (before ++ c' :: after)) = Ok stats'
    /\ number_le (percentage stats) (percentage stats').
Proof.
  intros Hall Hc'.
  assert (Hall' : forallb has_status (before ++ c' :: after) = true).
  { rewrite forallb_app in *. cbn [forallb] in *.
    apply andb_true_iff in Hall as [H1 H2]. apply andb_true_iff in H2 as [_ H2].
    rewrite H1, H2. unfold status_is in Hc'. unfold has_status.
    destruct (subscript c' "status"); [reflexivity|discriminate]. }
  do 2 eexists.
  split; [now apply calculate_coverage_seq|].
  split; [now apply calculate_coverage_seq|].
  cbn [percentage]. rewrite !count_insert, Hc', !length_app. cbn [List.length].
  unfold number_le, coverage_percentage.
  set (n := Z.of_nat (List.length before + S (List.length after))).
  assert (Hn : 0 < n) by (unfold n; lia).
  destruct (Z.ltb_spec 0 n) as [_|]; [|lia]. cbn [number_float].
  apply script_percentage_monotone; [assumption|].
  destruct (status_is "implemented" c); lia.
Qed.

Lemma percentage_monotone_in_implemented_witness :
  exists stats stats',
    calculate_coverage
      (YSeq ([control "implemented"] ++ control "in_progress" :: [])) = Ok stats
    /\ calculate_coverage
         (YSeq ([control "implemented"] ++ control "implemented" :: []))
       = Ok stats'
    /\ number_le (percentage stats) (percentage stats').
Proof.
  exact (percentage_monotone_in_implemented
           [control "implemented"] [] (control "in_progress")
           (control "implemented") eq_refl eq_refl).
Defined.

(** X11: for fewer than [2^40] controls the percentage is
    [100 * i / n] rounded to one decimal: it is the double nearest to
    [t / 10] for an integer [t] no further than one half from
    [1000 * i / n]. *)
Theorem percentage_is_nearest_tenth (cs : list yaml) (n i : Z) :
  forallb has_status cs = true ->
  n = Z.of_nat (List.length cs) ->
  i = count (status_is "implemented") cs ->
  0 < n -> n < 2 ^ 40 ->
  exists stats t,
    calculate_coverage (YSeq cs) = Ok stats
    /\ percentage stats = PyFloat (Float64.nearest t 10)
    /\ Z.abs (2 * t * n - 2000 * i) <= n.
Proof.
  intros Hcs -> -> Hn Hlt. do 2 eexists.
  split; [now apply calculate_coverage_seq|].
  cbn [percentage]. unfold coverage_percentage.
  destruct (Z.ltb_spec 0 (Z.of_nat (List.length cs))) as [_|]; [|lia].
  split; [reflexivity|].
  apply PercentageAccuracy.tenths_nearest; try assumption.
  - apply count_nonneg.
  - apply implemented_le_length.
Qed.

Lemma percentage_is_nearest_tenth_witness :
  exists stats t,
    calculate_coverage (YSeq controls_23_of_80) = Ok stats
    /\ percentage stats = PyFloat (Float64.nearest t 10)
    /\ Z.abs (2 * t * 80 - 2000 * 23) <= 80.
Proof.
  apply (percentage_is_nearest_tenth controls_23_of_80 80 23);
    try reflexivity.
Defined.

Lemma in_upto (n : nat) (t : Z) : 0 <= t <= Z.of_nat n -> In t (upto n).
Proof.
  intros H. unfold upto. rewrite <- (Z2Nat.id t) by lia.
  apply in_map. apply in_seq. lia.
Qed.

(** A number of tenths up to 100.0 survives the passage through the
    nearest double. *)
Lemma tenths_round_trip (t : Z) :
  0 <= t <= 1000 -> Float64.decimal_digits 1 (Float64.nearest t 10) = t.
Proof.
  intros Ht.
  assert (Hall : forallb
                   (fun t => Float64.decimal_digits 1 (Float64.nearest t 10) =? t)
                   (upto 1000) = true) by (vm_compute; reflexivity).
  rewrite forallb_forall in Hall.
  apply Z.eqb_eq. apply Hall. apply in_upto. simpl. lia.
Qed.

Lemma scaled_quotient_bounds (i n : Z) :
  0 <= i <= n -> 0 < n ->
  0 <= Float64.decimal_digits 1
         (Float64.mul (Float64.int_truediv i n) (Float64.of_int 100))
    <= 1000.
Proof.
  intros Hi Hn.
  set (x := Float64.mul (Float64.int_truediv i n) (Float64.of_int 100)).
  assert (H0 : (0 <= Float64.F2R x)%R).
  { apply Float64Reals.nearest_nonneg. apply Float64Reals.scale_den_pos. lia. }
  assert (H100 : (Float64.F2R x <= Float64.F2R (Float64.of_int 100))%R).
  { change (Float64.F2R (Float64.of_int 100))
      with (Float64.F2R
              (Float64.mul (Float64.int_truediv 1 1) (Float64.of_int 100))).
    unfold x. apply Float64Reals.mul_F2R_mono.
    - apply Float64Reals.nearest_mono; try lia.
      unfold Float64.ratio. destruct Hi as [_ Hi].
      apply IZR_lt in Hn. apply IZR_le in Hi.
      apply (Rmult_le_reg_r (IZR n)); [assumption|].
      replace (IZR i / IZR n * IZR n)%R with (IZR i) by (field; lra). lra.
    - apply Float64Reals.nearest_nonneg. lia. }
  split.
  - change 0 with (Float64.decimal_digits 1 Float64.zero).
    apply Float64Reals.decimal_digits_mono.
    now rewrite Float64Reals.F2R_zero.
  - change 1000 with (Float64.decimal_digits 1 (Float64.of_int 100)).
    now apply Float64Reals.decimal_digits_mono.
Qed.

(** X12: the percentage of a list that is not empty is a whole number
    [t] of tenths between 0 and 1000; the tenths read back from it are
    [t] again, so that rounding it once more changes nothing and the
    summary line prints it with exactly that one decimal. *)
Theorem percentage_prints_its_tenths (cs : list yaml) :
  cs <> [] ->
  forallb has_status cs = true ->
  exists stats t,
    calculate_coverage (YSeq cs) = Ok stats
    /\ 0 <= t <= 1000
    /\ percentage stats = PyFloat (Float64.nearest t 10)
    /\ Float64.round 1 (Float64.nearest t 10) = Float64.nearest t 10
    /\ str_number (percentage stats)
       = (str_int (t / 10) ++ "." ++ str_int (t mod 10))%string.
Proof.
  intros Hne Hcs. do 2 eexists.
  split; [now apply calculate_coverage_seq|].
  cbn [percentage]. unfold coverage_percentage.
  assert (Hn : 0 < Z.of_nat (List.length cs)) by (destruct cs; [easy|simpl; lia]).
  destruct (Z.ltb_spec 0 (Z.of_nat (List.length cs))) as [_|]; [|lia].
  pose proof (scaled_quotient_bounds
                (count (status_is "implemented") cs)
                (Z.of_nat (List.length cs))
                (conj (count_nonneg "implemented" cs) (implemented_le_length cs))
                Hn) as Ht.
  split; [exact Ht|]. split; [reflexivity|].
  unfold str_number, script_percentage, Float64.round.
  change (10 ^ Z.of_nat 1) with 10.
  rewrite !(tenths_round_trip _ Ht). split; reflexivity.
Qed.

Lemma percentage_prints_its_tenths_witness :
  exists stats t,
    calculate_coverage (YSeq controls_23_of_80) = Ok stats
    /\ 0 <= t <= 1000
    /\ percentage stats = PyFloat (Float64.nearest t 10)
    /\ Float64.round 1 (Float64.nearest t 10) = Float64.nearest t 10
    /\ str_number (percentage stats)
       = (str_int (t / 10) ++ "." ++ str_int (t mod 10))%string.
Proof.
  refine (percentage_prints_its_tenths controls_23_of_80 _ eq_refl).
  discriminate.
Defined.

(* ===================================================================== *)
(** ** Runs, whatever [generate_control_sections] is bound to *)
(* ===================================================================== *)



(** X15: conversely, a run ends well only if the module binds
    [generate_control_sections], the document has controls that the
    aggregator accepts, and [reports] is absent or a directory. *)
Theorem run_succeeds_only_when_bound g now w :
  fst (main g now w) = Ok tt ->
  exists doc controls stats f,
    input w = Document doc
    /\ subscript doc "controls" = Ok controls
    /\ calculate_coverage controls = Ok stats
    /\ generate_control_sections g = Some f
    /\ reports w <> NotADirectory.
Proof.
  intros Hok.
  destruct (main_ok_inv g now w Hok)
    as (doc & controls & stats & f & sections & H1 & H2 & H3 & H4 & _ & H6 & _).
  now exists doc, controls, stats, f.
Qed.

Lemma run_succeeds_only_when_bound_witness :
  exists doc controls stats f,
    Document (mapping_of (YSeq four_controls)) = Document doc
    /\ subscript doc "controls" = Ok controls
    /\ calculate_coverage controls = Ok stats
    /\ generate_control_sections sectioned_globals = Some f
    /\ NoEntry <> NotADirectory.
Proof.
  apply (run_succeeds_only_when_bound sectioned_globals example_now
           (empty_directory (Document (mapping_of (YSeq four_controls))))).
  vm_compute. reflexivity.
Defined.
